(** * Order processing saga: inventory, payment and order participants

    A shallow embedding of the three event consumers of the repository
    (inventory-service, payment-service and order-service, each in
    [app/consumer.py], with the tables of [app/models.py]) together with the
    properties of the saga protocol that are checked against them.

    Conventions of the embedding.
    - A table with a primary key is a finite map from the key to the row when
      the key is a single column ([gmap string _]); the reservation table, whose
      key is the pair (order_id, product_id), is the list of its rows and the
      key constraint is checked where the rows are inserted.
    - A handler is a function from the store to the new store and the list of
      messages handed to [publish_event], oldest first.  The fields of a
      message that hold a fresh uuid4 or a clock reading ([event_id],
      [timestamp], [reservation_id], [payment_id]) are left out, and so are
      the [created_at] columns of the reservation and payment tables, which
      nothing reads.
    - An exception is a value of [exn]; the [try ... except Exception] at the
      top of every handler logs it, so that a handler that raises before its
      commit leaves the store as it found it and publishes nothing. *)

From Stdlib Require Import ZArith QArith.
From stdpp Require Import gmap strings list fin_maps.

Local Open Scope Z_scope.

(** ** Exceptions *)

Inductive exn : Type :=
| IntegrityError   (* a commit that breaks a primary key *)
| AttributeError   (* attribute access on None *)
| PaymentSimulationFailed (* Exception("Payment simulation failed") *)
| RetryError.      (* tenacity: the attempts are used up *)

Inductive result (A : Type) : Type :=
| Ok (a : A)
| Raise (e : exn).
Arguments Ok {A} a.
Arguments Raise {A} e.

(** [result] is a monad; stdpp's [x ← r; k] sequences two steps and stops at
    the first one that raises. *)
#[global] Instance result_ret : MRet result := λ A a, Ok a.
#[global] Instance result_bind : MBind result := λ A B k r,
  match r with
  | Ok a => k a
  | Raise e => Raise e
  end.

(** ** Messages handed to the broker *)

Inductive event : Type :=
| InventoryReserved (order_id : string)
| InventoryUnavailable (order_id : string) (reason : string)
| PaymentProcessed (order_id : string) (amount : Q)
| PaymentFailed (order_id : string) (reason : string)
| OrderConfirmed (order_id : string) (total_amount : Q)
| OrderCancelled (order_id : string) (reason : string).

(** One call [publish_event(exchange_name, routing_key, message_data)]. *)
Record published : Type := Published {
  exchange_name : string;
  pub_routing_key : string;
  message_data : event
}.

(** * Inventory participant *)

Module InventoryService.

(** [models.py]: [Inventory] has primary key [product_id] and an integer
    [stock]; [InventoryReservation] has the composite primary key
    (order_id, product_id) and an integer [quantity]. *)
Record InventoryReservation : Type := Reservation {
  order_id : string;
  product_id : string;
  quantity : Z
}.

Record Db : Type := MkDb {
  inventory : gmap string Z;
  inventory_reservations : list InventoryReservation
}.

(** An entry of the [items] list of an OrderCreated event. *)
Record Item : Type := MkItem {
  item_product_id : string;
  item_quantity : Z
}.

Definition pk (r : InventoryReservation) : string * string :=
  (order_id r, product_id r).

(** The first loop of [process_order_created]: read the stock of every item and
    prepare its reservation, stopping at the first item that is missing or
    short.  The result is [inventory_reserved] and [reservations]. *)
Fixpoint check_stock (inv : gmap string Z) (oid : string) (items : list Item)
    (reservations : list InventoryReservation)
  : bool * list InventoryReservation :=
  match items with
  | [] => (true, reservations)
  | item :: items' =>
    match inv !! item_product_id item with
    | None => (false, reservations)
    | Some stock =>
      if stock <? item_quantity item then (false, reservations)
      else check_stock inv oid items'
             (reservations ++ [Reservation oid (item_product_id item) (item_quantity item)])
    end
  end.

(** The second loop: [inventory.stock -= res.quantity] on the row the session
    holds for the product. *)
Fixpoint decrement_stock (inv : gmap string Z) (reservations : list InventoryReservation)
  : result (gmap string Z) :=
  match reservations with
  | [] => Ok inv
  | res :: rest =>
    match inv !! product_id res with
    | None => Raise AttributeError
    | Some stock => decrement_stock (<[product_id res := stock - quantity res]> inv) rest
    end
  end.

(** [session.add(res)] for every reservation, flushed by [session.commit()]:
    one INSERT per row, refused with IntegrityError when the key
    (order_id, product_id) is already in the table, be it from an earlier
    commit or from an earlier row of the same flush.  The stock updates of
    the session belong to the same transaction and are rolled back with it. *)
Fixpoint insert_reservations (rows news : list InventoryReservation)
  : result (list InventoryReservation) :=
  match news with
  | [] => Ok rows
  | res :: rest =>
    if decide (pk res ∈ pk <$> rows) then Raise IntegrityError
    else insert_reservations (rows ++ [res]) rest
  end.

Definition reserved_message (oid : string) : published :=
  Published "inventory_exchange" "inventory.reserved" (InventoryReserved oid).

Definition unavailable_message (oid : string) : published :=
  Published "inventory_exchange" "inventory.unavailable"
            (InventoryUnavailable oid "Insufficient stock").

(** The body of the [try] of [process_order_created]. *)
Definition order_created_body (oid : string) (items : list Item) (db : Db)
  : result (Db * list published) :=
  let '(inventory_reserved, reservations) := check_stock (inventory db) oid items [] in
  if inventory_reserved then
    inv' ← decrement_stock (inventory db) reservations;
    rows' ← insert_reservations (inventory_reservations db) reservations;
    Ok (MkDb inv' rows', [reserved_message oid])
  else
    Ok (db, [unavailable_message oid]).

Definition process_order_created (oid : string) (items : list Item) (db : Db)
  : Db * list published :=
  match order_created_body oid items db with
  | Ok r => r
  | Raise _ => (db, [])
  end.

(** [select(InventoryReservation).where(order_id == oid)] and the matching
    [delete]. *)
Definition reservations_of (oid : string) (rows : list InventoryReservation)
  : list InventoryReservation :=
  filter (λ r, order_id r = oid) rows.

Definition delete_reservations (oid : string) (rows : list InventoryReservation)
  : list InventoryReservation :=
  filter (λ r, order_id r ≠ oid) rows.

(** The loop of the compensation: credit every reservation back, skipping a
    product that has no inventory row. *)
Definition release_one (inv : gmap string Z) (res : InventoryReservation) : gmap string Z :=
  match inv !! product_id res with
  | Some stock => <[product_id res := stock + quantity res]> inv
  | None => inv
  end.

Definition release_stock (inv : gmap string Z) (reservations : list InventoryReservation)
  : gmap string Z :=
  foldl release_one inv reservations.

Definition process_order_cancelled (oid : string) (db : Db) : Db * list published :=
  match reservations_of oid (inventory_reservations db) with
  | [] => (db, [])
  | reservations =>
    (MkDb (release_stock (inventory db) reservations)
          (delete_reservations oid (inventory_reservations db)),
     [])
  end.

(** A delivery on [inventory_q]: the routing key and the decoded body. *)
Record IncomingMessage : Type := Message {
  routing_key : string;
  body_order_id : string;
  body_items : list Item
}.

Definition on_message (m : IncomingMessage) (db : Db) : Db * list published :=
  if decide (routing_key m = "order.created") then
    process_order_created (body_order_id m) (body_items m) db
  else if decide (routing_key m = "order.cancelled") then
    process_order_cancelled (body_order_id m) db
  else (db, []).

(** The stores seen after each delivery of a sequence, in order. *)
Fixpoint consume (ms : list IncomingMessage) (db : Db) : list Db :=
  match ms with
  | [] => []
  | m :: ms' => let db' := fst (on_message m db) in db' :: consume ms' db'
  end.

(** [seeder.py] *)
Definition seed_inventory : Db :=
  MkDb (<["product-A" := 10]> (<["product-B" := 5]> (<["product-C" := 0]> ∅))) [].

(** ** Predicates of the statements *)

(** order-service [schemas.py]: [quantity: int = Field(..., gt=0)]. *)
Definition Item_valid (item : Item) : Prop := 0 < item_quantity item.

Definition message_valid (m : IncomingMessage) : Prop :=
  Forall Item_valid (body_items m).

Definition stock_nonneg (db : Db) : Prop :=
  map_Forall (λ _ stock, 0 ≤ stock) (inventory db).

Definition reservations_nonneg (db : Db) : Prop :=
  Forall (λ r, 0 ≤ quantity r) (inventory_reservations db).

(** The item cannot be served: its product has no inventory row, or less
    stock than asked for. *)
Definition unavailable (inv : gmap string Z) (item : Item) : Prop :=
  match inv !! item_product_id item with
  | None => True
  | Some stock => stock < item_quantity item
  end.

#[global] Instance Item_valid_dec (item : Item) : Decision (Item_valid item).
Proof. unfold Item_valid. apply _. Defined.

#[global] Instance message_valid_dec (m : IncomingMessage) : Decision (message_valid m).
Proof. unfold message_valid. apply _. Defined.

#[global] Instance stock_nonneg_dec (db : Db) : Decision (stock_nonneg db).
Proof. unfold stock_nonneg. apply _. Defined.

#[global] Instance reservations_nonneg_dec (db : Db) : Decision (reservations_nonneg db).
Proof. unfold reservations_nonneg. apply _. Defined.

#[global] Instance unavailable_dec (inv : gmap string Z) (item : Item) :
  Decision (unavailable inv item).
Proof. unfold unavailable. destruct (inv !! item_product_id item); apply _. Defined.

(** The item can be served. *)
Definition covered (inv : gmap string Z) (item : Item) : Prop :=
  ∃ stock, inv !! item_product_id item = Some stock ∧ item_quantity item ≤ stock.

Definition reservation_of_item (oid : string) (item : Item) : InventoryReservation :=
  Reservation oid (item_product_id item) (item_quantity item).

(** What [process_order_created] can return: the order is turned down, the
    commit is refused, or the order is reserved. *)
Inductive created_outcome (oid : string) (items : list Item) (db : Db)
  : Db * list published → Prop :=
| created_unavailable :
    Exists (unavailable (inventory db)) items →
    created_outcome oid items db (db, [unavailable_message oid])
| created_refused :
    Forall (covered (inventory db)) items →
    insert_reservations (inventory_reservations db) (reservation_of_item oid <$> items)
      = Raise IntegrityError →
    created_outcome oid items db (db, [])
| created_reserved inv' :
    Forall (covered (inventory db)) items →
    NoDup (item_product_id <$> items) →
    (∀ item, item ∈ items →
       (oid, item_product_id item) ∉ pk <$> inventory_reservations db) →
    decrement_stock (inventory db) (reservation_of_item oid <$> items) = Ok inv' →
    created_outcome oid items db
      (MkDb inv' (inventory_reservations db ++ (reservation_of_item oid <$> items)),
       [reserved_message oid]).

End InventoryService.

(** * Payment participant *)

Module PaymentService.

(** [models.py]: [Payment] has primary key [order_id]; [status] is a string
    column holding PROCESSED or FAILED.  The table maps the key to the other
    columns. *)
Record Payment : Type := MkPayment {
  amount : Q;
  status : string
}.

(** ** The retry decorator

    [@retry(stop=stop_after_attempt(3), wait=wait_exponential(multiplier=1,
    min=2, max=10))] comes from the tenacity library (the definitions follow
    its release 8).  Its loop calls the function; a result is returned as it
    is; after an exception the stop condition is asked with the number of the
    attempt just made (from 1): when it holds RetryError is raised, otherwise
    the loop sleeps for [wait attempt_number] and calls again. *)

Definition stop_after_attempt (max_attempt_number attempt_number : nat) : bool :=
  bool_decide (max_attempt_number ≤ attempt_number)%nat.

(** [max(max(0, min), min(multiplier * 2 ** (attempt_number - 1), max))] *)
Definition wait_exponential (multiplier min max : Z) (attempt_number : nat) : Z :=
  Z.max (Z.max 0 min) (Z.min (multiplier * 2 ^ (Z.of_nat attempt_number - 1)) max).

(** What a run of the loop did: the number of calls made and the sleeps taken
    between them, in order. *)
Record retry_log : Type := MkLog {
  attempts : nat;
  sleeps : list Z
}.

(** The loop, with [fuel] bounding the number of calls: [None] is a loop that
    is still retrying when the fuel is spent. *)
Fixpoint retry_call {A : Type} (fuel : nat) (stop : nat → bool) (wait : nat → Z)
    (fn : nat → result A) (attempt_number : nat) (slept : list Z)
  : option (result A * retry_log) :=
  match fuel with
  | O => None
  | S fuel' =>
    match fn attempt_number with
    | Ok a => Some (Ok a, MkLog attempt_number slept)
    | Raise _ =>
      if stop attempt_number then Some (Raise RetryError, MkLog attempt_number slept)
      else retry_call fuel' stop wait fn (S attempt_number) (slept ++ [wait attempt_number])
    end
  end.

(** The body of [simulate_payment_processing]; [draw k] tells whether the
    [random.random()] of the k-th call fell below 0.8. *)
Definition simulate_once (draw : nat → bool) (attempt_number : nat) : result bool :=
  if draw attempt_number then Ok true else Raise PaymentSimulationFailed.

Definition simulate_payment_processing (fuel : nat) (draw : nat → bool)
  : option (result bool * retry_log) :=
  retry_call fuel (stop_after_attempt 3) (wait_exponential 1 2 10) (simulate_once draw) 1 [].

(** ** The handler *)

(** [amount = 100.0 # Placeholder] *)
Definition placeholder_amount : Q := 100.

(** [session.add(new_payment); session.commit()]: an INSERT, refused when the
    order already has a row. *)
Definition add_payment (oid : string) (p : Payment) (payments : gmap string Payment)
  : result (gmap string Payment) :=
  match payments !! oid with
  | Some _ => Raise IntegrityError
  | None => Ok (<[oid := p]> payments)
  end.

Definition processed_message (oid : string) : published :=
  Published "payment_exchange" "payment.processed" (PaymentProcessed oid placeholder_amount).

Definition failed_message (oid : string) : published :=
  Published "payment_exchange" "payment.failed"
            (PaymentFailed oid "Payment failed after retries").

(** The inner [try]: the charge, and on success the PROCESSED row and its
    event. *)
Definition charge_and_record (charge : result bool) (oid : string)
    (payments : gmap string Payment)
  : result (gmap string Payment * list published) :=
  success ← charge;
  if (success : bool) then
    payments' ← add_payment oid (MkPayment placeholder_amount "PROCESSED") payments;
    Ok (payments', [processed_message oid])
  else Ok (payments, []).

(** The inner [except Exception]: the FAILED row and its event. *)
Definition record_failure (oid : string) (payments : gmap string Payment)
  : result (gmap string Payment * list published) :=
  payments' ← add_payment oid (MkPayment placeholder_amount "FAILED") payments;
  Ok (payments', [failed_message oid]).

(** [process_inventory_reserved]: the new table, the messages published and
    the log of the charge ([attempts = 0] when the charge was not called). *)
Definition process_inventory_reserved (fuel : nat) (draw : nat → bool) (oid : string)
    (payments : gmap string Payment)
  : option (gmap string Payment * list published * retry_log) :=
  match payments !! oid with
  | Some _ => Some (payments, [], MkLog 0 [])
  | None =>
    '(charge, log) ← simulate_payment_processing fuel draw;
    match charge_and_record charge oid payments with
    | Ok (payments', pubs) => Some (payments', pubs, log)
    | Raise _ =>
      match record_failure oid payments with
      | Ok (payments', pubs) => Some (payments', pubs, log)
      | Raise _ => Some (payments, [], log)
      end
    end
  end.

End PaymentService.

(** * Order participant *)

Module OrderService.

Inductive OrderStatus : Type :=
| PENDING
| CONFIRMED
| PAYMENT_PROCESSING
| PAYMENT_FAILED
| COMPLETED
| CANCELLED.

(** [models.py]: [Order] has primary key [id]; the table maps it to the other
    columns.  Times are clock readings. *)
Record Order : Type := MkOrder {
  customer_id : string;
  items : string;
  total_amount : Q;
  status : OrderStatus;
  created_at : Z;
  updated_at : Z
}.

(** [update_order_status], called when the clock reads [now]: the new table
    and the order returned. *)
Definition update_order_status (oid : string) (new_status : OrderStatus) (now : Z)
    (orders : gmap string Order)
  : gmap string Order * option Order :=
  match orders !! oid with
  | Some order =>
    let order' := MkOrder (customer_id order) (items order) (total_amount order)
                          new_status (created_at order) now in
    (<[oid := order']> orders, Some order')
  | None => (orders, None)
  end.

Definition cancelled_message (oid reason : string) : published :=
  Published "order_exchange" "order.cancelled" (OrderCancelled oid reason).

Definition confirmed_message (oid : string) (total : Q) : published :=
  Published "order_exchange" "order.confirmed" (OrderConfirmed oid total).

Definition process_inventory_unavailable (oid : string) (now : Z) (orders : gmap string Order)
  : gmap string Order * list published :=
  let '(orders', order) := update_order_status oid CANCELLED now orders in
  match order with
  | Some _ => (orders', [cancelled_message oid "Inventory Unavailable"])
  | None => (orders', [])
  end.

Definition process_payment_processed (oid : string) (now : Z) (orders : gmap string Order)
  : gmap string Order * list published :=
  let '(orders', order) := update_order_status oid COMPLETED now orders in
  match order with
  | Some o => (orders', [confirmed_message oid (total_amount o)])
  | None => (orders', [])
  end.

Definition process_payment_failed (oid : string) (now : Z) (orders : gmap string Order)
  : gmap string Order * list published :=
  let '(orders', order) := update_order_status oid CANCELLED now orders in
  match order with
  | Some _ => (orders', [cancelled_message oid "Payment Failed"])
  | None => (orders', [])
  end.

(** A delivery on [order_q]: the routing key and the [order_id] of the body. *)
Record IncomingMessage : Type := Message {
  routing_key : string;
  body_order_id : string
}.

Definition on_message (m : IncomingMessage) (now : Z) (orders : gmap string Order)
  : gmap string Order * list published :=
  if decide (routing_key m = "inventory.unavailable") then
    process_inventory_unavailable (body_order_id m) now orders
  else if decide (routing_key m = "payment.processed") then
    process_payment_processed (body_order_id m) now orders
  else if decide (routing_key m = "payment.failed") then
    process_payment_failed (body_order_id m) now orders
  else (orders, []).

(** ** Predicates of the statements *)

(** The order with its status and its update time replaced. *)
Definition with_status (new_status : OrderStatus) (now : Z) (order : Order) : Order :=
  MkOrder (customer_id order) (items order) (total_amount order)
          new_status (created_at order) now.

(** The three routing keys bound to [order_q]. *)
Definition order_event (m : IncomingMessage) : Prop :=
  routing_key m = "inventory.unavailable" ∨
  routing_key m = "payment.processed" ∨
  routing_key m = "payment.failed".

#[global] Instance order_event_dec (m : IncomingMessage) : Decision (order_event m).
Proof. unfold order_event. apply _. Defined.

(** Delivering [m] again, at time [now'], after it has been handled at time
    [now]: the second delivery is a no-op when it returns the table it was
    given and publishes nothing. *)
Definition redelivery_is_no_op (m : IncomingMessage) (now now' : Z)
    (orders : gmap string Order) : Prop :=
  let applied := (on_message m now orders).1 in
  on_message m now' applied = (applied, []).

End OrderService.

(** * The inventory books *)

Module InventoryLedger.
Import InventoryService.

(** The quantity the reservation rows hold for a product. *)
Definition reserved_quantity (p : string) (rows : list InventoryReservation) : Z :=
  foldr (λ r total, if decide (product_id r = p) then quantity r + total else total) 0 rows.

(** Stock on hand plus reserved quantity, for a product with an inventory
    row. *)
Definition total_quantity (db : Db) (p : string) : option Z :=
  (λ stock, stock + reserved_quantity p (inventory_reservations db)) <$> inventory db !! p.

(** The constraints [models.py] declares on the reservation table: the
    composite primary key, and the foreign key of [product_id] into the
    inventory table. *)
Definition primary_key_ok (db : Db) : Prop :=
  NoDup (pk <$> inventory_reservations db).

Definition foreign_key_ok (db : Db) : Prop :=
  Forall (λ r, is_Some (inventory db !! product_id r)) (inventory_reservations db).

(** The store after a sequence of deliveries. *)
Definition run (ms : list IncomingMessage) (db : Db) : Db :=
  foldl (λ db m, (on_message m db).1) db ms.

(** The keys under which an order would insert its rows are free. *)
Definition keys_free (oid : string) (items : list Item) (db : Db) : Prop :=
  ∀ item, item ∈ items → (oid, item_product_id item) ∉ pk <$> inventory_reservations db.

End InventoryLedger.

(** * Sequences of deliveries on the order queue *)

Module OrderLedger.
Import OrderService.

(** The table after a sequence of deliveries, each with the clock reading at
    which it is handled. *)
Definition run (ds : list (IncomingMessage * Z)) (orders : gmap string Order)
  : gmap string Order :=
  foldl (λ orders d, (on_message d.1 d.2 orders).1) orders ds.

(** The status a routing key stands for in [on_message]. *)
Definition target_status (routing_key : string) : option OrderStatus :=
  if decide (routing_key = "inventory.unavailable") then Some CANCELLED
  else if decide (routing_key = "payment.processed") then Some COMPLETED
  else if decide (routing_key = "payment.failed") then Some CANCELLED
  else None.

(** The status and update time the deliveries of a sequence that are addressed
    to an order, taken in turn, leave it with. *)
Definition stamp_after (oid : string) (ds : list (IncomingMessage * Z))
    (stamp : OrderStatus * Z) : OrderStatus * Z :=
  foldl (λ stamp d,
           if decide (body_order_id d.1 = oid) then
             match target_status (routing_key d.1) with
             | Some new_status => (new_status, d.2)
             | None => stamp
             end
           else stamp)
        stamp ds.

End OrderLedger.

(** * Seeding the inventory table *)

Module InventorySeeder.

(** [seeder.py]: the rows [seed_inventory] adds. *)
Definition products : list (string * Z) :=
  [("product-A", 10); ("product-B", 5); ("product-C", 0)].

(** [session.add_all(products); session.commit()]: the INSERTs of one commit;
    a row whose [product_id] is already in the table breaks its primary
    key. *)
Fixpoint add_all (rows : list (string * Z)) (inventory : gmap string Z)
  : result (gmap string Z) :=
  match rows with
  | [] => Ok inventory
  | (product_id, stock) :: rows' =>
    match inventory !! product_id with
    | Some _ => Raise IntegrityError
    | None => add_all rows' (<[product_id := stock]> inventory)
    end
  end.

(** [seed_inventory]: the table it leaves; [Raise] is the exception it lets
    through, with nothing committed. *)
Definition seed_inventory (inventory : gmap string Z) : result (gmap string Z) :=
  match inventory !! "product-A" with
  | Some _ => Ok inventory
  | None => add_all products inventory
  end.

End InventorySeeder.

(** * The order API *)

Module OrderApi.
Import OrderService.

(** [schemas.py]: the body of a POST, and the body of an answer. *)
Record OrderCreate : Type := MkOrderCreate {
  create_customer_id : string;
  create_items : list InventoryService.Item;
  create_total_amount : Q
}.

Record OrderRead : Type := MkOrderRead {
  read_id : string;
  read_customer_id : string;
  read_items : list InventoryService.Item;
  read_total_amount : Q;
  read_status : OrderStatus;
  read_created_at : Z;
  read_updated_at : Z
}.

(** [event_data] of [create_order], the OrderCreated event. *)
Record OrderCreated : Type := MkOrderCreated {
  created_order_id : string;
  created_items : list InventoryService.Item;
  created_total_amount : Q
}.

(** A message on the broker: the one of [create_order], or one of a
    consumer. *)
Inductive envelope : Type :=
| FromApi (exchange_name routing_key : string) (event_data : OrderCreated)
| FromConsumer (p : published).

(** What an endpoint answers: a body with its status code, an
    [HTTPException], or an exception that escapes the endpoint. *)
Inductive response (A : Type) : Type :=
| Reply (status_code : Z) (content : A)
| HTTPException (status_code : Z) (detail : string)
| Unhandled.
Arguments Reply {A} status_code content.
Arguments HTTPException {A} status_code detail.
Arguments Unhandled {A}.

(** [messaging.py], [publish_event]: nothing is sent while the module's
    [channel] is not set. *)
Definition publish_event (channel : bool) (message : envelope) : list envelope :=
  if channel then [message] else [].

Section json.

(** [json.dumps] and [json.loads] on lists of items; [None] is a
    [JSONDecodeError]. *)
Variable json_dumps : list InventoryService.Item → string.
Variable json_loads : string → option (list InventoryService.Item).

(** [OrderRead.model_validate(order)]: an [items] column still holding the
    string goes through [parse_items]. *)
Definition model_validate (order_id : string) (order : Order) : response OrderRead :=
  match json_loads (items order) with
  | Some parsed =>
    Reply 201 (MkOrderRead order_id (customer_id order) parsed (total_amount order)
                           (status order) (created_at order) (updated_at order))
  | None => Unhandled
  end.

(** The row [create_order] adds; [now] and [now'] are the clock readings of
    the two column defaults. *)
Definition new_order (now now' : Z) (order_data : OrderCreate) : Order :=
  MkOrder (create_customer_id order_data) (json_dumps (create_items order_data))
          (create_total_amount order_data) PENDING now now'.

(** [create_order], with [order_id] the uuid4 drawn: the table, the messages
    sent and the answer; [Raise] is the exception of the commit, with nothing
    stored or sent. *)
Definition create_order (channel : bool) (order_id : string) (now now' : Z)
    (order_data : OrderCreate) (orders : gmap string Order)
  : result (gmap string Order * list envelope * response OrderRead) :=
  match orders !! order_id with
  | Some _ => Raise IntegrityError
  | None =>
    let order := new_order now now' order_data in
    let event_data := MkOrderCreated order_id (create_items order_data)
                                     (create_total_amount order_data) in
    Ok (<[order_id := order]> orders,
        publish_event channel (FromApi "order_exchange" "order.created" event_data),
        model_validate order_id order)
  end.

(** [get_order] *)
Definition get_order (order_id : string) (orders : gmap string Order) : response OrderRead :=
  match orders !! order_id with
  | None => HTTPException 404 "Order not found"
  | Some order =>
    match json_loads (items order) with
    | Some parsed =>
      Reply 200 (MkOrderRead order_id (customer_id order) parsed (total_amount order)
                             (status order) (created_at order) (updated_at order))
    | None => Unhandled
    end
  end.

(** [get_orders]: the rows come in the order the table gives them. *)
Definition get_orders (orders : gmap string Order) : response (list OrderRead) :=
  match mapM (λ row : string * Order,
                parsed ← json_loads (items row.2);
                Some (MkOrderRead row.1 (customer_id row.2) parsed (total_amount row.2)
                                  (status row.2) (created_at row.2) (updated_at row.2)))
             (map_to_list orders) with
  | Some answers => Reply 200 answers
  | None => Unhandled
  end.

End json.

End OrderApi.

(** * The four consumers on one broker *)

Module Saga.
Import OrderApi.

Inductive queue : Type :=
| inventory_q
| payment_q
| order_q
| notification_q.

#[global] Instance queue_eq_dec : EqDecision queue.
Proof. solve_decision. Defined.

(** The [queue.bind] calls of the four [main] functions: queue, exchange and
    routing key. *)
Definition bindings : list (queue * string * string) :=
  [ (inventory_q, "order_exchange", "order.created");
    (inventory_q, "order_exchange", "order.cancelled");
    (payment_q, "inventory_exchange", "inventory.reserved");
    (order_q, "inventory_exchange", "inventory.unavailable");
    (order_q, "payment_exchange", "payment.processed");
    (order_q, "payment_exchange", "payment.failed");
    (notification_q, "order_exchange", "order.confirmed");
    (notification_q, "order_exchange", "order.cancelled");
    (notification_q, "payment_exchange", "payment.processed");
    (notification_q, "payment_exchange", "payment.failed") ].

Definition exchange_of (w : envelope) : string :=
  match w with
  | FromApi exchange _ _ => exchange
  | FromConsumer p => exchange_name p
  end.

Definition routing_key_of (w : envelope) : string :=
  match w with
  | FromApi _ key _ => key
  | FromConsumer p => pub_routing_key p
  end.

(** The fields of the body the consumers read. *)
Definition event_type (e : event) : string :=
  match e with
  | InventoryReserved _ => "InventoryReserved"
  | InventoryUnavailable _ _ => "InventoryUnavailable"
  | PaymentProcessed _ _ => "PaymentProcessed"
  | PaymentFailed _ _ => "PaymentFailed"
  | OrderConfirmed _ _ => "OrderConfirmed"
  | OrderCancelled _ _ => "OrderCancelled"
  end.

Definition event_order_id (e : event) : string :=
  match e with
  | InventoryReserved oid | InventoryUnavailable oid _ | PaymentProcessed oid _
  | PaymentFailed oid _ | OrderConfirmed oid _ | OrderCancelled oid _ => oid
  end.

Definition event_type_of (w : envelope) : string :=
  match w with
  | FromApi _ _ _ => "OrderCreated"
  | FromConsumer p => event_type (message_data p)
  end.

Definition order_id_of (w : envelope) : string :=
  match w with
  | FromApi _ _ event_data => created_order_id event_data
  | FromConsumer p => event_order_id (message_data p)
  end.

(** The queues a topic exchange copies a message to; no binding of the
    services has a wildcard. *)
Definition routed (w : envelope) : list (queue * envelope) :=
  omap (λ b : queue * string * string,
          if decide (b.1.2 = exchange_of w ∧ b.2 = routing_key_of w)
          then Some (b.1.1, w) else None)
       bindings.

(** The stores of the services, and what the notification service has
    printed: event type and order id of each notification. *)
Record System : Type := MkSystem {
  orders : gmap string OrderService.Order;
  stock : InventoryService.Db;
  payments : gmap string PaymentService.Payment;
  notifications : list (string * string)
}.

(** One delivery handled by the consumer of its queue: the new stores and the
    messages sent. *)
Definition deliver_inventory (w : envelope) (s : System) : System * list envelope :=
  match w with
  | FromApi _ key event_data =>
    let m := InventoryService.Message key (created_order_id event_data)
                                      (created_items event_data) in
    let r := InventoryService.on_message m (stock s) in
    (MkSystem (orders s) r.1 (payments s) (notifications s), FromConsumer <$> r.2)
  | FromConsumer p =>
    if decide (pub_routing_key p = "order.created") then
      (* [event_data["items"]]: KeyError, logged *)
      (s, [])
    else
      let m := InventoryService.Message (pub_routing_key p)
                                        (event_order_id (message_data p)) [] in
      let r := InventoryService.on_message m (stock s) in
      (MkSystem (orders s) r.1 (payments s) (notifications s), FromConsumer <$> r.2)
  end.

(** [fuel] and [draw] are those of the charge. *)
Definition deliver_payment (fuel : nat) (draw : nat → bool) (w : envelope) (s : System)
  : option (System * list envelope) :=
  match PaymentService.process_inventory_reserved fuel draw (order_id_of w) (payments s) with
  | Some (payments', pubs, _) =>
    Some (MkSystem (orders s) (stock s) payments' (notifications s), FromConsumer <$> pubs)
  | None => None
  end.

(** [channel] is the channel of the order service, [now] the clock reading. *)
Definition deliver_order (channel : bool) (now : Z) (w : envelope) (s : System)
  : System * list envelope :=
  let m := OrderService.Message (routing_key_of w) (order_id_of w) in
  let r := OrderService.on_message m now (orders s) in
  (MkSystem r.1 (stock s) (payments s) (notifications s),
   r.2 ≫= λ p, publish_event channel (FromConsumer p)).

(** [process_notification_event] *)
Definition deliver_notification (w : envelope) (s : System) : System * list envelope :=
  (MkSystem (orders s) (stock s) (payments s)
            (notifications s ++ [(event_type_of w, order_id_of w)]), []).

Definition deliver (channel : bool) (fuel : nat) (draw : nat → bool) (now : Z)
    (q : queue) (w : envelope) (s : System) : option (System * list envelope) :=
  match q with
  | inventory_q => Some (deliver_inventory w s)
  | payment_q => deliver_payment fuel draw w s
  | order_q => Some (deliver_order channel now w s)
  | notification_q => Some (deliver_notification w s)
  end.

(** The deliveries waiting in the queues are handled one at a time, oldest
    first; the k-th delivery handled reads the clock as [clock k] and draws
    [draw k].  [steps] bounds the number of deliveries handled: [None] is a run
    with deliveries still waiting. *)
Fixpoint run (steps : nat) (channel : bool) (fuel : nat) (draw : nat → nat → bool)
    (clock : nat → Z) (k : nat) (waiting : list (queue * envelope)) (s : System)
  : option System :=
  match waiting with
  | [] => Some s
  | (q, w) :: waiting' =>
    match steps with
    | O => None
    | S steps' =>
      match deliver channel fuel (draw k) (clock k) q w s with
      | Some (s', sent) =>
        run steps' channel fuel draw clock (S k) (waiting' ++ (sent ≫= routed)) s'
      | None => None
      end
    end
  end.

(** A POST to the API followed by the deliveries it sets off. *)
Definition post_order (json_dumps : list InventoryService.Item → string)
    (json_loads : string → option (list InventoryService.Item))
    (steps : nat) (channel : bool) (fuel : nat) (draw : nat → nat → bool) (clock : nat → Z)
    (order_id : string) (now now' : Z) (order_data : OrderCreate) (s : System)
  : option System :=
  match create_order json_dumps json_loads channel order_id now now' order_data (orders s) with
  | Ok (orders', sent, _) =>
    run steps channel fuel draw clock 0%nat (sent ≫= routed)
        (MkSystem orders' (stock s) (payments s) (notifications s))
  | Raise _ => Some s
  end.

(** An upper bound on the deliveries one delivery sets off, itself
    included. *)
Definition weight (d : queue * envelope) : nat :=
  match d.1 with
  | inventory_q => if decide (routing_key_of d.2 = "order.created") then 6 else 1
  | payment_q => 5
  | order_q => 3
  | notification_q => 1
  end.

End Saga.

(** * List facts used below *)

Section list_facts.
Context {A : Type}.

Lemma Forall_filter_keep (P Q : A → Prop) `{!∀ x, Decision (Q x)} (l : list A) :
  Forall P l → Forall P (filter Q l).
Proof.
  rewrite !Forall_forall. intros Hall x [_ Hx]%list_elem_of_filter. by apply Hall.
Qed.

Lemma filter_none (Q : A → Prop) `{!∀ x, Decision (Q x)} (l : list A) :
  (∀ x, x ∈ l → ¬ Q x) → filter Q l = [].
Proof.
  intros Hno. induction l as [|x l IH]; [done|].
  rewrite filter_cons_False by (apply Hno; left).
  apply IH. intros y Hy. apply Hno. by right.
Qed.

Lemma filter_all (Q : A → Prop) `{!∀ x, Decision (Q x)} (l : list A) :
  (∀ x, x ∈ l → Q x) → filter Q l = l.
Proof.
  intros Hall. induction l as [|x l IH]; [done|].
  rewrite filter_cons_True by (apply Hall; left).
  f_equal. apply IH. intros y Hy. apply Hall. by right.
Qed.
End list_facts.

(** * Properties of the inventory participant *)

Module InventoryFacts.
Import InventoryService.

(** ** The stock check *)

Lemma check_stock_true inv oid items acc rs :
  check_stock inv oid items acc = (true, rs) →
  rs = acc ++ (reservation_of_item oid <$> items) ∧
  Forall (λ item, ∃ stock, inv !! item_product_id item = Some stock ∧
                           item_quantity item ≤ stock) items.
Proof.
  revert acc. induction items as [|item items IH]; intros acc; simpl.
  - intros [= <-]. by rewrite app_nil_r.
  - destruct (inv !! item_product_id item) as [stock|] eqn:Hget; [|done].
    destruct (stock <? item_quantity item) eqn:Hlt; [done|].
    intros Hrec. apply IH in Hrec as [-> Hall]. split.
    + by rewrite <- app_assoc.
    + constructor; [|done]. exists stock. split; [done|]. by apply Z.ltb_ge.
Qed.

Lemma check_stock_false inv oid items acc :
  Exists (unavailable inv) items →
  ∃ rs, check_stock inv oid items acc = (false, rs).
Proof.
  intros Hex. revert acc. induction Hex as [item items Hbad|item items _ IH];
    intros acc; simpl; unfold unavailable in *.
  - destruct (inv !! item_product_id item) as [stock|]; [|by eexists].
    apply Z.ltb_lt in Hbad. rewrite Hbad. by eexists.
  - destruct (inv !! item_product_id item) as [stock|]; [|by eexists].
    destruct (stock <? item_quantity item); [by eexists|]. apply IH.
Qed.

Lemma check_stock_all_available inv oid items acc :
  Forall (λ item, ¬ unavailable inv item) items →
  check_stock inv oid items acc = (true, acc ++ (reservation_of_item oid <$> items)).
Proof.
  intros Hall. revert acc. induction Hall as [|item items Hok _ IH]; intros acc; simpl.
  - by rewrite app_nil_r.
  - unfold unavailable in Hok.
    destruct (inv !! item_product_id item) as [stock|]; [|done].
    destruct (stock <? item_quantity item) eqn:Hlt.
    + apply Z.ltb_lt in Hlt. done.
    + rewrite IH. by rewrite <- app_assoc.
Qed.

(** ** The insertion of the reservations *)

Lemma insert_reservations_Ok rows news rows' :
  insert_reservations rows news = Ok rows' →
  rows' = rows ++ news ∧ NoDup (pk <$> news) ∧
  ∀ r, r ∈ news → pk r ∉ pk <$> rows.
Proof.
  revert rows. induction news as [|res news IH]; intros rows; simpl.
  - intros [= <-]. rewrite app_nil_r. split_and!; [done|constructor|].
    intros r Hr. by apply elem_of_nil in Hr.
  - case_decide as Hin; [done|]. intros Hrec.
    apply IH in Hrec as (-> & Hnd & Hfresh). split_and!.
    + by rewrite <- app_assoc.
    + constructor; [|done].
      intros Hdup. apply list_elem_of_fmap in Hdup as (r & Heq & Hr).
      apply (Hfresh r Hr). rewrite fmap_app. apply elem_of_app. right.
      rewrite <- Heq. simpl. apply list_elem_of_singleton. done.
    + intros r [->|Hr]%elem_of_cons; [done|].
      intros Hbad. apply (Hfresh r Hr). rewrite fmap_app.
      apply elem_of_app. by left.
Qed.

Lemma insert_reservations_fresh rows news :
  NoDup (pk <$> news) →
  (∀ r, r ∈ news → pk r ∉ pk <$> rows) →
  insert_reservations rows news = Ok (rows ++ news).
Proof.
  revert rows. induction news as [|res news IH]; intros rows Hnd Hfresh; simpl.
  - by rewrite app_nil_r.
  - rewrite fmap_cons in Hnd. apply NoDup_cons in Hnd as [Hres Hnd].
    rewrite decide_False by (apply Hfresh; left).
    rewrite IH; [by rewrite <- app_assoc|done|].
    intros r Hr. rewrite fmap_app. intros [Hbad|Hbad]%elem_of_app.
    + apply (Hfresh r); [by right|done].
    + simpl in Hbad. apply list_elem_of_singleton in Hbad.
      apply Hres. rewrite <- Hbad. by apply list_elem_of_fmap_2.
Qed.

(** The rows prepared for one order differ in their product as soon as they
    differ in their key. *)
Lemma pk_reservation_of_item oid (items : list Item) :
  pk <$> (reservation_of_item oid <$> items) = pair oid <$> (item_product_id <$> items).
Proof. induction items as [|item items IH]; csimpl; [done|]. by rewrite IH. Qed.

Lemma product_id_reservation_of_item oid (items : list Item) :
  product_id <$> (reservation_of_item oid <$> items) = item_product_id <$> items.
Proof. induction items as [|item items IH]; csimpl; [done|]. by rewrite IH. Qed.

Lemma NoDup_products_of_order oid (items : list Item) :
  NoDup (pk <$> (reservation_of_item oid <$> items)) →
  NoDup (item_product_id <$> items).
Proof. rewrite pk_reservation_of_item. apply NoDup_fmap_1. Qed.

(** ** The decrement *)

Lemma covered_lookup_insert (inv : gmap string Z) p s (items : list Item) :
  p ∉ item_product_id <$> items →
  Forall (covered inv) items → Forall (covered (<[p := s]> inv)) items.
Proof.
  intros Hfresh Hcov. apply Forall_forall. intros item Hin.
  rewrite Forall_forall in Hcov. destruct (Hcov _ Hin) as (stock & Hget & Hle).
  exists stock. split; [|done]. rewrite lookup_insert_ne; [done|].
  intros Heq. apply Hfresh. rewrite Heq. by apply list_elem_of_fmap_2.
Qed.

Lemma decrement_stock_nonneg oid (items : list Item) (inv inv' : gmap string Z) :
  NoDup (item_product_id <$> items) →
  Forall (covered inv) items →
  map_Forall (λ _ stock, 0 ≤ stock) inv →
  decrement_stock inv (reservation_of_item oid <$> items) = Ok inv' →
  map_Forall (λ _ stock, 0 ≤ stock) inv'.
Proof.
  revert inv. induction items as [|item items IH]; intros inv Hnd Hcov Hinv; simpl.
  - by intros [= <-].
  - apply NoDup_cons in Hnd as [Hfresh Hnd].
    apply Forall_cons in Hcov as [(stock & Hget & Hle) Hcov].
    rewrite Hget. apply IH; [done| |].
    + by apply covered_lookup_insert.
    + apply map_Forall_insert_2; [lia|done].
Qed.

(** The decrement cannot raise after the check: every row it reads was read
    by the check in the same session. *)
Lemma decrement_stock_Ok oid (items : list Item) (inv : gmap string Z) :
  Forall (λ item, is_Some (inv !! item_product_id item)) items →
  ∃ inv', decrement_stock inv (reservation_of_item oid <$> items) = Ok inv' ∧
          dom inv' = dom inv.
Proof.
  revert inv. induction items as [|item items IH]; intros inv Hall; simpl.
  - by eexists.
  - apply Forall_cons in Hall as [[stock Hget] Hall]. rewrite Hget.
    destruct (IH (<[item_product_id item := stock - item_quantity item]> inv))
      as (inv' & Hdec & Hdom).
    + eapply Forall_impl; [exact Hall|]. intros item' [s Hs]. simpl.
      rewrite lookup_insert. case_decide; eauto.
    + exists inv'. split; [done|]. rewrite Hdom, dom_insert_L.
      apply elem_of_dom_2 in Hget.
      apply subseteq_union_1_L. by apply singleton_subseteq_l.
Qed.

(** ** The release *)

Lemma release_one_nonneg (inv : gmap string Z) res :
  0 ≤ quantity res →
  map_Forall (λ _ stock, 0 ≤ stock) inv →
  map_Forall (λ _ stock, 0 ≤ stock) (release_one inv res).
Proof.
  intros Hq Hinv. unfold release_one.
  destruct (inv !! product_id res) as [stock|] eqn:Hget; [|done].
  apply map_Forall_insert_2; [|done]. specialize (Hinv _ _ Hget). simpl in Hinv. lia.
Qed.

Lemma release_stock_nonneg (inv : gmap string Z) rs :
  Forall (λ r, 0 ≤ quantity r) rs →
  map_Forall (λ _ stock, 0 ≤ stock) inv →
  map_Forall (λ _ stock, 0 ≤ stock) (release_stock inv rs).
Proof.
  unfold release_stock. intros Hrs. revert inv.
  induction Hrs as [|r rs Hq _ IH]; intros inv Hinv; simpl; [done|].
  apply IH. by apply release_one_nonneg.
Qed.

(** ** The three outcomes of [process_order_created] *)

Lemma check_stock_false_inv inv oid items acc rs :
  check_stock inv oid items acc = (false, rs) → Exists (unavailable inv) items.
Proof.
  revert acc. induction items as [|item items IH]; intros acc; simpl; [done|].
  destruct (inv !! item_product_id item) as [stock|] eqn:Hget.
  - destruct (stock <? item_quantity item) eqn:Hlt.
    + intros _. left. unfold unavailable. rewrite Hget. by apply Z.ltb_lt.
    + intros Hrec. right. by eapply IH.
  - intros _. left. unfold unavailable. by rewrite Hget.
Qed.

Lemma insert_reservations_Raise rows news e :
  insert_reservations rows news = Raise e → e = IntegrityError.
Proof.
  revert rows. induction news as [|res news IH]; intros rows; simpl; [done|].
  case_decide; [by intros [= <-]|]. apply IH.
Qed.

Lemma process_order_created_outcome oid items db :
  created_outcome oid items db (process_order_created oid items db).
Proof.
  unfold process_order_created, order_created_body.
  destruct (check_stock (inventory db) oid items []) as [[] rs] eqn:Hcheck.
  - apply check_stock_true in Hcheck as [-> Hcov]. simpl.
    destruct (decrement_stock_Ok oid items (inventory db)) as (inv' & Hdec & _).
    { eapply Forall_impl; [exact Hcov|]. intros item (stock & -> & _). by eexists. }
    rewrite Hdec. simpl.
    destruct (insert_reservations _ _) as [rows'|e] eqn:Hins; simpl.
    + apply insert_reservations_Ok in Hins as (-> & Hnd & Hfresh).
      apply created_reserved; [done| | |done].
      * by eapply NoDup_products_of_order.
      * intros item Hin. apply (Hfresh (reservation_of_item oid item)).
        by apply list_elem_of_fmap_2.
    + pose proof (insert_reservations_Raise _ _ _ Hins) as ->.
      by apply created_refused.
  - apply check_stock_false_inv in Hcheck. simpl. by apply created_unavailable.
Qed.

(** ** Both handlers keep the stock non-negative *)

Lemma process_order_created_nonneg oid items db :
  Forall Item_valid items →
  stock_nonneg db → reservations_nonneg db →
  stock_nonneg (process_order_created oid items db).1 ∧
  reservations_nonneg (process_order_created oid items db).1.
Proof.
  intros Hvalid Hstock Hres.
  destruct (process_order_created_outcome oid items db)
    as [_|_ _|inv' Hcov Hnd _ Hdec]; simpl; [done..|].
  split.
  - unfold stock_nonneg. simpl. by eapply decrement_stock_nonneg.
  - unfold reservations_nonneg. simpl. apply Forall_app. split; [done|].
    apply Forall_fmap. eapply Forall_impl; [exact Hvalid|].
    intros item Hpos. unfold Item_valid in Hpos. simpl. lia.
Qed.

Lemma process_order_cancelled_nonneg oid db :
  stock_nonneg db → reservations_nonneg db →
  stock_nonneg (process_order_cancelled oid db).1 ∧
  reservations_nonneg (process_order_cancelled oid db).1.
Proof.
  intros Hstock Hres. unfold process_order_cancelled.
  destruct (reservations_of oid (inventory_reservations db)) as [|r rs] eqn:Hsel;
    [done|].
  rewrite <- Hsel. split.
  - apply release_stock_nonneg; [|done]. by apply Forall_filter_keep.
  - by apply Forall_filter_keep.
Qed.

Lemma on_message_nonneg m db :
  message_valid m →
  stock_nonneg db → reservations_nonneg db →
  stock_nonneg (on_message m db).1 ∧ reservations_nonneg (on_message m db).1.
Proof.
  intros Hvalid Hstock Hres. unfold on_message.
  repeat case_decide.
  - by apply process_order_created_nonneg.
  - by apply process_order_cancelled_nonneg.
  - done.
Qed.

(** C1. For every sequence of deliveries on the inventory queue (OrderCreated,
    OrderCancelled, in any order and with any repetition) whose items carry
    the positive quantities of the order schema, started from a store with no
    negative stock and no negative reservation, the stock of every product is
    non-negative after each handler completes.  The item list of an
    OrderCreated may name the same product more than once: the rows prepared
    for such an order share their (order_id, product_id) key, the commit is
    refused and the stock stays as it was. *)
Theorem C1_stock_never_negative (ms : list InventoryService.IncomingMessage)
    (db : InventoryService.Db) :
  Forall message_valid ms →
  stock_nonneg db → reservations_nonneg db →
  Forall stock_nonneg (consume ms db).
Proof.
  intros Hvalid. revert db.
  induction Hvalid as [|m ms Hm _ IH]; intros db Hstock Hres; simpl.
  - constructor.
  - destruct (on_message_nonneg m db Hm Hstock Hres) as [Hstock' Hres'].
    constructor; [done|]. by apply IH.
Qed.

Example duplicate_product_is_refused :
  process_order_created "O1" [MkItem "product-A" 6; MkItem "product-A" 6] seed_inventory
  = (seed_inventory, []).
Proof. reflexivity. Qed.

(** Inside the session both decrements of a product named twice are applied;
    it is the commit that is refused, and the decrements go with it. *)
Example duplicate_product_in_the_session :
  decrement_stock (inventory seed_inventory)
    [Reservation "O1" "product-A" 6; Reservation "O1" "product-A" 6]
  = Ok (<["product-A" := -2]> (inventory seed_inventory)) ∧
  insert_reservations []
    [Reservation "O1" "product-A" 6; Reservation "O1" "product-A" 6]
  = Raise IntegrityError.
Proof. by vm_compute. Qed.

Lemma C1_stock_never_negative_witness :
  Forall stock_nonneg
    (consume [Message "order.created" "O1" [MkItem "product-A" 6; MkItem "product-A" 6];
              Message "order.created" "O2" [MkItem "product-A" 6; MkItem "product-B" 5];
              Message "order.created" "O3" [MkItem "product-A" 6];
              Message "order.cancelled" "O2" [];
              Message "order.cancelled" "O2" [];
              Message "order.created" "O3" [MkItem "product-A" 10]]
             seed_inventory).
Proof.
  apply C1_stock_never_negative.
  - repeat constructor; unfold Item_valid; simpl; lia.
  - unfold stock_nonneg, seed_inventory; simpl.
    repeat (apply map_Forall_insert_2; [lia|]). apply map_Forall_empty.
  - constructor.
Defined.

Example seed_inventory_is_sound :
  bool_decide (stock_nonneg seed_inventory ∧ reservations_nonneg seed_inventory) = true.
Proof. by vm_compute. Qed.

(** ** An order that cannot be served *)

(** C3. When at least one item of an OrderCreated event names a product that
    has no inventory row or less stock than the quantity asked for, the
    handler returns the store it was given (every stock and the reservation
    table are unchanged, no item is reserved) and publishes exactly one
    message, InventoryUnavailable with the order id and a reason. *)
Theorem C3_unavailable_order_changes_nothing (oid : string)
    (items : list InventoryService.Item) (db : InventoryService.Db) :
  Exists (unavailable (inventory db)) items →
  process_order_created oid items db
  = (db, [Published "inventory_exchange" "inventory.unavailable"
                    (InventoryUnavailable oid "Insufficient stock")]).
Proof.
  intros Hbad. unfold process_order_created, order_created_body.
  destruct (check_stock_false (inventory db) oid items [] Hbad) as [rs ->]. done.
Qed.

Lemma C3_unavailable_order_changes_nothing_witness :
  process_order_created "O1" [MkItem "product-A" 1; MkItem "product-C" 1] seed_inventory
  = (seed_inventory, [Published "inventory_exchange" "inventory.unavailable"
                                (InventoryUnavailable "O1" "Insufficient stock")]).
Proof.
  apply C3_unavailable_order_changes_nothing.
  right. left. unfold unavailable. simpl. vm_compute. reflexivity.
Defined.

(** ** The compensation *)

Lemma process_order_cancelled_none oid db :
  reservations_of oid (inventory_reservations db) = [] →
  process_order_cancelled oid db = (db, []).
Proof. intros Hsel. unfold process_order_cancelled. by rewrite Hsel. Qed.

Lemma process_order_cancelled_some oid db :
  reservations_of oid (inventory_reservations db) ≠ [] →
  process_order_cancelled oid db
  = (MkDb (release_stock (inventory db) (reservations_of oid (inventory_reservations db)))
          (delete_reservations oid (inventory_reservations db)),
     []).
Proof.
  intros Hsel. unfold process_order_cancelled.
  by destruct (reservations_of oid (inventory_reservations db)).
Qed.

Lemma reservations_of_deleted oid rows :
  reservations_of oid (delete_reservations oid rows) = [].
Proof.
  unfold reservations_of, delete_reservations. apply filter_none.
  intros r [Hne _]%list_elem_of_filter. done.
Qed.

Lemma release_one_lookup_ne (inv : gmap string Z) res p :
  product_id res ≠ p → release_one inv res !! p = inv !! p.
Proof.
  intros Hne. unfold release_one.
  destruct (inv !! product_id res); [|done]. by rewrite lookup_insert_ne.
Qed.

Lemma release_stock_lookup_other (inv : gmap string Z) rs p :
  (∀ r, r ∈ rs → product_id r ≠ p) →
  release_stock inv rs !! p = inv !! p.
Proof.
  unfold release_stock. revert inv.
  induction rs as [|r rs IH]; intros inv Hne; simpl; [done|].
  rewrite IH by (intros r' Hr'; apply Hne; by right).
  apply release_one_lookup_ne. apply Hne. by left.
Qed.

Lemma no_reservation_after_cancel oid db :
  reservations_of oid (inventory_reservations (process_order_cancelled oid db).1) = [].
Proof.
  unfold process_order_cancelled.
  destruct (reservations_of oid (inventory_reservations db)) eqn:Hsel; simpl.
  - done.
  - apply reservations_of_deleted.
Qed.

(** C2. For a product P with stock S and an order that reserves q ≤ S of it
    (the reservation table has no row for this order and P yet), handling
    OrderCreated reserves the quantity, and handling OrderCancelled for the same
    order id afterwards brings the stock of P back to exactly S and leaves no
    reservation row for the order id. *)
Theorem C2_cancel_after_reserve_restores_stock (db : InventoryService.Db)
    (oid P : string) (S q : Z) :
  inventory db !! P = Some S →
  q ≤ S →
  (oid, P) ∉ pk <$> inventory_reservations db →
  let reserved := process_order_created oid [MkItem P q] db in
  let cancelled := process_order_cancelled oid reserved.1 in
  reserved.2 = [reserved_message oid] ∧
  inventory reserved.1 !! P = Some (S - q) ∧
  inventory cancelled.1 !! P = Some S ∧
  reservations_of oid (inventory_reservations cancelled.1) = [].
Proof.
  intros Hget Hle Hfresh reserved cancelled.
  assert (Hres : reserved
                 = (MkDb (<[P := S - q]> (inventory db))
                         (inventory_reservations db ++ [Reservation oid P q]),
                    [reserved_message oid])).
  { unfold reserved, process_order_created, order_created_body. simpl.
    rewrite Hget. replace (S <? q) with false by (symmetry; apply Z.ltb_ge; lia).
    simpl. rewrite Hget. simpl. by rewrite decide_False. }
  subst cancelled. rewrite Hres. simpl.
  split_and!; [done|by rewrite lookup_insert_eq| |].
  - rewrite process_order_cancelled_some; simpl.
    2:{ unfold reservations_of. rewrite filter_app, filter_cons_True by done.
        intros Hnil. by apply app_eq_nil in Hnil as [_ ?]. }
    unfold reservations_of. rewrite filter_app, filter_cons_True by done.
    rewrite filter_nil. unfold release_stock. rewrite foldl_app. simpl.
    unfold release_one at 1. fold (release_stock (<[P:=S - q]> (inventory db))
      (filter (λ r, order_id r = oid) (inventory_reservations db))).
    simpl. rewrite release_stock_lookup_other.
    + rewrite lookup_insert_eq. rewrite lookup_insert_eq. f_equal. lia.
    + intros r [Hoid Hr]%list_elem_of_filter Hp. apply Hfresh.
      apply list_elem_of_fmap. exists r. split; [|done].
      unfold pk. by rewrite Hoid, Hp.
  - apply no_reservation_after_cancel.
Qed.

Lemma C2_cancel_after_reserve_restores_stock_witness :
  let reserved := process_order_created "O1" [MkItem "product-A" 3] seed_inventory in
  let cancelled := process_order_cancelled "O1" reserved.1 in
  reserved.2 = [reserved_message "O1"] ∧
  inventory reserved.1 !! "product-A" = Some (10 - 3) ∧
  inventory cancelled.1 !! "product-A" = Some 10 ∧
  reservations_of "O1" (inventory_reservations cancelled.1) = [].
Proof.
  apply (C2_cancel_after_reserve_restores_stock seed_inventory "O1" "product-A" 10 3).
  - reflexivity.
  - lia.
  - simpl. apply not_elem_of_nil.
Defined.

(** *** Orders of several items *)

Lemma release_one_comm (inv : gmap string Z) r1 r2 :
  product_id r1 ≠ product_id r2 →
  release_one (release_one inv r1) r2 = release_one (release_one inv r2) r1.
Proof.
  intros Hne. unfold release_one.
  destruct (inv !! product_id r1) as [s1|] eqn:H1;
    destruct (inv !! product_id r2) as [s2|] eqn:H2;
    rewrite ?lookup_insert_ne by done; rewrite ?H1, ?H2; try done.
  by apply insert_insert_ne.
Qed.

Lemma release_stock_release_one (inv : gmap string Z) r rs :
  product_id r ∉ product_id <$> rs →
  release_stock (release_one inv r) rs = release_one (release_stock inv rs) r.
Proof.
  unfold release_stock. revert inv.
  induction rs as [|r' rs IH]; intros inv Hfresh; simpl; [done|].
  apply not_elem_of_cons in Hfresh as [Hne Hfresh].
  rewrite release_one_comm by done. by apply IH.
Qed.

(** Releasing the rows of an order that has just been reserved undoes the
    decrement. *)
Lemma release_after_decrement oid (items : list Item) (inv inv' : gmap string Z) :
  NoDup (item_product_id <$> items) →
  decrement_stock inv (reservation_of_item oid <$> items) = Ok inv' →
  release_stock inv' (reservation_of_item oid <$> items) = inv.
Proof.
  revert inv. induction items as [|item items IH]; intros inv Hnd; csimpl.
  - by intros [= <-].
  - apply NoDup_cons in Hnd as [Hfresh Hnd].
    destruct (inv !! item_product_id item) as [stock|] eqn:Hget; [|done].
    intros Hdec. unfold release_stock. simpl.
    fold (release_stock (release_one inv' (reservation_of_item oid item))
                        (reservation_of_item oid <$> items)).
    rewrite release_stock_release_one
      by (simpl; by rewrite product_id_reservation_of_item).
    rewrite (IH _ Hnd Hdec). unfold release_one. simpl.
    rewrite lookup_insert_eq, insert_insert_eq.
    replace (stock - item_quantity item + item_quantity item) with stock by lia.
    by apply insert_id.
Qed.

Lemma no_reservation_elem oid rows r :
  reservations_of oid rows = [] → r ∈ rows → order_id r ≠ oid.
Proof.
  intros Hnone Hr Heq.
  assert (Hin : r ∈ reservations_of oid rows) by (by apply list_elem_of_filter).
  rewrite Hnone in Hin. by apply elem_of_nil in Hin.
Qed.

(** The early return of the compensation cannot be told from the store: with
    no reservation to release, the loop and the delete change nothing. *)
Lemma process_order_cancelled_store oid db :
  (process_order_cancelled oid db).1
  = MkDb (release_stock (inventory db) (reservations_of oid (inventory_reservations db)))
         (delete_reservations oid (inventory_reservations db)).
Proof.
  destruct (decide (reservations_of oid (inventory_reservations db) = [])) as [Hnone|Hsome].
  - rewrite process_order_cancelled_none by done. rewrite Hnone. simpl.
    unfold delete_reservations.
    rewrite filter_all by (intros r Hr; by eapply no_reservation_elem).
    by destruct db.
  - by rewrite process_order_cancelled_some.
Qed.

(** For an order id with no reservation row yet, OrderCreated followed by
    OrderCancelled gives back the store, whatever the items and whichever
    way the reservation went. *)
Lemma cancel_after_created_restores_store oid (items : list Item) (db : Db) :
  reservations_of oid (inventory_reservations db) = [] →
  (process_order_cancelled oid (process_order_created oid items db).1).1 = db.
Proof.
  intros Hnone.
  destruct (process_order_created_outcome oid items db)
    as [_|_ _|inv' _ Hnd _ Hdec]; simpl.
  1-2: by rewrite process_order_cancelled_none.
  assert (Hown : reservations_of oid (reservation_of_item oid <$> items)
                 = reservation_of_item oid <$> items).
  { apply filter_all. by intros r (item & -> & _)%list_elem_of_fmap. }
  assert (Hsel : reservations_of oid
                   (inventory_reservations db ++ (reservation_of_item oid <$> items))
                 = reservation_of_item oid <$> items).
  { unfold reservations_of in *. by rewrite filter_app, Hnone, Hown. }
  rewrite process_order_cancelled_store.
  cbn [fst inventory inventory_reservations]. rewrite Hsel.
  rewrite (release_after_decrement oid items _ _ Hnd Hdec).
  unfold delete_reservations. rewrite filter_app.
  rewrite (filter_all _ (inventory_reservations db))
    by (intros r Hr; by eapply no_reservation_elem).
  rewrite filter_none; [rewrite app_nil_r; by destruct db|].
  intros r (item & -> & _)%list_elem_of_fmap Hne. by apply Hne.
Qed.

Example two_items_reserved_then_cancelled :
  let reserved := process_order_created "O1" [MkItem "product-A" 6; MkItem "product-B" 5]
                                        seed_inventory in
  inventory reserved.1 !! "product-A" = Some 4 ∧
  inventory reserved.1 !! "product-B" = Some 0 ∧
  length (inventory_reservations reserved.1) = 2%nat ∧
  (process_order_cancelled "O1" reserved.1).1 = seed_inventory.
Proof. by vm_compute. Qed.

(** C9. Handling the same order.cancelled event twice in succession: the second
    delivery finds no reservation for the order id, returns the store the first
    one left (so the stock of every product is as after the first handling),
    publishes nothing, and no reservation row for the order id remains. *)
Theorem C9_second_cancellation_is_a_no_op (oid : string) (db : InventoryService.Db) :
  let first := process_order_cancelled oid db in
  let second := process_order_cancelled oid first.1 in
  second = (first.1, []) ∧
  inventory second.1 = inventory first.1 ∧
  reservations_of oid (inventory_reservations first.1) = [] ∧
  reservations_of oid (inventory_reservations second.1) = [] ∧
  first.2 = [].
Proof.
  intros first second.
  assert (Hnone : reservations_of oid (inventory_reservations first.1) = [])
    by apply no_reservation_after_cancel.
  assert (Hsecond : second = (first.1, [])).
  { unfold second. by apply process_order_cancelled_none. }
  rewrite Hsecond. simpl. split_and!; try done.
  unfold first, process_order_cancelled.
  by destruct (reservations_of oid (inventory_reservations db)).
Qed.

End InventoryFacts.

(** * Properties of the payment participant *)

Module PaymentFacts.
Import PaymentService.

(** ** The wait between attempts *)

Lemma wait_exponential_bounds (multiplier min max : Z) (attempt_number : nat) :
  0 ≤ min → min ≤ max →
  min ≤ wait_exponential multiplier min max attempt_number ≤ max.
Proof. intros Hmin Hle. unfold wait_exponential. lia. Qed.

Lemma wait_exponential_doubles (attempt_number : nat) :
  (2 ≤ attempt_number ≤ 4)%nat →
  wait_exponential 1 2 10 attempt_number = 2 ^ (Z.of_nat attempt_number - 1).
Proof.
  intros Hn. assert (Hcases : attempt_number = 2%nat ∨ attempt_number = 3%nat
                              ∨ attempt_number = 4%nat) by lia.
  by destruct Hcases as [->|[->| ->]].
Qed.

Example wait_schedule :
  wait_exponential 1 2 10 <$> [1; 2; 3; 4; 5; 6]%nat = [2; 2; 4; 8; 10; 10].
Proof. reflexivity. Qed.

(** ** The retry loop *)

(** More fuel does not change a run that has ended. *)
Lemma retry_call_fuel_mono {A : Type} (fuel fuel' : nat) stop wait
    (fn : nat → result A) n slept r :
  (fuel ≤ fuel')%nat →
  retry_call fuel stop wait fn n slept = Some r →
  retry_call fuel' stop wait fn n slept = Some r.
Proof.
  revert fuel' n slept. induction fuel as [|fuel IH]; intros fuel' n slept Hle; [done|].
  destruct fuel' as [|fuel']; [lia|]. simpl.
  destruct (fn n); [done|]. destruct (stop n); [done|].
  apply IH. lia.
Qed.

(** The loop under [stop_after_attempt max] ends within [max] calls, whatever
    the function does. *)
Lemma retry_call_terminates {A : Type} (max fuel : nat) wait
    (fn : nat → result A) n slept :
  (max - n < fuel)%nat →
  is_Some (retry_call fuel (stop_after_attempt max) wait fn n slept).
Proof.
  revert n slept. induction fuel as [|fuel IH]; intros n slept Hfuel; [lia|]. simpl.
  destruct (fn n); [by eexists|].
  unfold stop_after_attempt at 1. case_bool_decide; [by eexists|].
  apply IH. lia.
Qed.

(** The charge, by cases on the three draws it can make. *)
Lemma simulate_payment_processing_cases (fuel : nat) (draw : nat → bool) :
  (3 ≤ fuel)%nat →
  simulate_payment_processing fuel draw =
    Some (if draw 1%nat then (Ok true, MkLog 1 [])
          else if draw 2%nat then (Ok true, MkLog 2 [2])
          else if draw 3%nat then (Ok true, MkLog 3 [2; 2])
          else (Raise RetryError, MkLog 3 [2; 2])).
Proof.
  intros Hfuel. apply (retry_call_fuel_mono 3 fuel); [done|].
  unfold simulate_payment_processing, simulate_once. simpl.
  destruct (draw 1%nat); [done|]. simpl.
  destruct (draw 2%nat); [done|]. simpl.
  by destruct (draw 3%nat).
Qed.

(** An attempt number below a small bound is one of finitely many. *)
Ltac draws_before k :=
  first [ lia
        | assert (k = 1%nat) as -> by lia
        | let H := fresh in
          assert (H : k = 1%nat ∨ k = 2%nat) by lia; destruct H as [-> | ->] ].

(** C8. The simulated charge is a bounded retry.  Given fuel for three calls it
    always ends, after at least one and at most three attempts; it sleeps once
    between two attempts, for the time [wait_exponential] gives for the attempt
    that failed, which is never below 2 nor above 10 and is 2 for the first
    sleep; it ends with the value True as soon as an attempt succeeds, and with
    RetryError, a failure and not a pending state, when the third attempt has
    failed. *)
Theorem C8_charge_is_a_bounded_retry (fuel : nat) (draw : nat → bool) :
  (3 ≤ fuel)%nat →
  ∃ charge log,
    simulate_payment_processing fuel draw = Some (charge, log) ∧
    (1 ≤ attempts log ≤ 3)%nat ∧
    sleeps log = wait_exponential 1 2 10 <$> seq 1 (attempts log - 1) ∧
    Forall (λ w, 2 ≤ w ≤ 10) (sleeps log) ∧
    (∀ w, head (sleeps log) = Some w → w = 2) ∧
    (∀ k, (1 ≤ k < attempts log)%nat → draw k = false) ∧
    ((charge = Ok true ∧ draw (attempts log) = true) ∨
     (charge = Raise RetryError ∧ attempts log = 3%nat ∧ draw 3%nat = false)).
Proof.
  intros Hfuel. rewrite simulate_payment_processing_cases by done.
  destruct (draw 1%nat) eqn:H1; [|destruct (draw 2%nat) eqn:H2;
                                  [|destruct (draw 3%nat) eqn:H3]];
    simpl; eexists _, _; (split; [reflexivity|]); simpl;
    (split_and!; [lia|lia|reflexivity|repeat constructor; lia|by intros w [= <-]|
                  intros k Hk; by draws_before k|auto]).
Qed.

Lemma C8_charge_is_a_bounded_retry_witness :
  ∃ charge log,
    simulate_payment_processing 3 (λ k, bool_decide (k = 3%nat)) = Some (charge, log) ∧
    (1 ≤ attempts log ≤ 3)%nat ∧
    sleeps log = wait_exponential 1 2 10 <$> seq 1 (attempts log - 1) ∧
    Forall (λ w, 2 ≤ w ≤ 10) (sleeps log) ∧
    (∀ w, head (sleeps log) = Some w → w = 2) ∧
    (∀ k, (1 ≤ k < attempts log)%nat → bool_decide (k = 3%nat) = false) ∧
    ((charge = Ok true ∧ bool_decide (attempts log = 3%nat) = true) ∨
     (charge = Raise RetryError ∧ attempts log = 3%nat ∧ bool_decide (3 = 3)%nat = false)).
Proof.
  apply (C8_charge_is_a_bounded_retry 3 (λ k, bool_decide (k = 3%nat))). lia.
Defined.

(** ** The handler *)

(** C4. When the payment table already holds a row for the order id of an
    InventoryReserved event, whatever the status of that row, the handler stops:
    the charge is not attempted (no call, no sleep), the table is returned as it
    was and nothing is published.  This needs no fuel. *)
Theorem C4_existing_payment_stops_the_handler (fuel : nat) (draw : nat → bool)
    (oid : string) (payments : gmap string PaymentService.Payment)
    (existing : PaymentService.Payment) :
  payments !! oid = Some existing →
  process_inventory_reserved fuel draw oid payments = Some (payments, [], MkLog 0 []).
Proof. intros Hget. unfold process_inventory_reserved. by rewrite Hget. Qed.

Lemma C4_existing_payment_stops_the_handler_witness :
  process_inventory_reserved 0 (λ _, true) "O1"
    {[ "O1" := MkPayment placeholder_amount "FAILED" ]}
  = Some ({[ "O1" := MkPayment placeholder_amount "FAILED" ]}, [], MkLog 0 []).
Proof.
  apply (C4_existing_payment_stops_the_handler 0 (λ _, true) "O1" _
           (MkPayment placeholder_amount "FAILED")).
  apply lookup_singleton_eq.
Defined.

Lemma add_payment_fresh oid p (payments : gmap string Payment) :
  payments !! oid = None → add_payment oid p payments = Ok (<[oid := p]> payments).
Proof. intros Hget. unfold add_payment. by rewrite Hget. Qed.

Lemma process_inventory_reserved_charged fuel draw oid
    (payments : gmap string Payment) log :
  payments !! oid = None →
  simulate_payment_processing fuel draw = Some (Ok true, log) →
  process_inventory_reserved fuel draw oid payments
  = Some (<[oid := MkPayment placeholder_amount "PROCESSED"]> payments,
          [processed_message oid], log).
Proof.
  intros Hget Hsim. unfold process_inventory_reserved. rewrite Hget, Hsim. simpl.
  unfold charge_and_record. simpl. by rewrite add_payment_fresh.
Qed.

Lemma process_inventory_reserved_exhausted fuel draw oid
    (payments : gmap string Payment) e log :
  payments !! oid = None →
  simulate_payment_processing fuel draw = Some (Raise e, log) →
  process_inventory_reserved fuel draw oid payments
  = Some (<[oid := MkPayment placeholder_amount "FAILED"]> payments,
          [failed_message oid], log).
Proof.
  intros Hget Hsim. unfold process_inventory_reserved. rewrite Hget, Hsim. simpl.
  unfold record_failure. by rewrite add_payment_fresh.
Qed.

(** C7. When the payment table has no row for the order id of an
    InventoryReserved event, the handler, given fuel for three calls, ends in
    one of two ways.  If an attempt of the charge succeeds within the three
    attempts, the table gains exactly the row of the order id, with status
    PROCESSED, and exactly one message is published, PaymentProcessed.  If the
    three attempts fail, the table gains exactly the row of the order id, with
    status FAILED, and exactly one message is published, PaymentFailed. *)
Theorem C7_one_payment_row_and_one_event (fuel : nat) (draw : nat → bool)
    (oid : string) (payments : gmap string PaymentService.Payment) :
  (3 ≤ fuel)%nat →
  payments !! oid = None →
  ∃ charge log,
    simulate_payment_processing fuel draw = Some (charge, log) ∧
    ((charge = Ok true ∧
      (∃ k, (1 ≤ k ≤ 3)%nat ∧ draw k = true) ∧
      process_inventory_reserved fuel draw oid payments
      = Some (<[oid := MkPayment 100 "PROCESSED"]> payments,
              [Published "payment_exchange" "payment.processed"
                         (PaymentProcessed oid 100)],
              log))
     ∨
     (charge = Raise RetryError ∧
      (∀ k, (1 ≤ k ≤ 3)%nat → draw k = false) ∧
      process_inventory_reserved fuel draw oid payments
      = Some (<[oid := MkPayment 100 "FAILED"]> payments,
              [Published "payment_exchange" "payment.failed"
                         (PaymentFailed oid "Payment failed after retries")],
              log))).
Proof.
  intros Hfuel Hget.
  pose proof (simulate_payment_processing_cases fuel draw Hfuel) as Hsim.
  destruct (draw 1%nat) eqn:H1; [|destruct (draw 2%nat) eqn:H2;
                                  [|destruct (draw 3%nat) eqn:H3]].
  1-3: eexists _, _; split; [exact Hsim|]; left;
       (split_and!; [done|eexists; split; [|eassumption]; lia|
                     by apply process_inventory_reserved_charged]).
  eexists _, _; split; [exact Hsim|]. right. split_and!; [done| |].
  - intros k Hk. assert (Hc : k = 1%nat ∨ k = 2%nat ∨ k = 3%nat) by lia.
    by destruct Hc as [->|[->| ->]].
  - by eapply process_inventory_reserved_exhausted.
Qed.

Lemma C7_one_payment_row_and_one_event_witness :
  ∃ charge log,
    simulate_payment_processing 3 (λ k, bool_decide (k = 2%nat)) = Some (charge, log) ∧
    ((charge = Ok true ∧
      (∃ k, (1 ≤ k ≤ 3)%nat ∧ bool_decide (k = 2%nat) = true) ∧
      process_inventory_reserved 3 (λ k, bool_decide (k = 2%nat)) "O1" ∅
      = Some (<["O1" := MkPayment 100 "PROCESSED"]> ∅,
              [Published "payment_exchange" "payment.processed"
                         (PaymentProcessed "O1" 100)],
              log))
     ∨
     (charge = Raise RetryError ∧
      (∀ k, (1 ≤ k ≤ 3)%nat → bool_decide (k = 2%nat) = false) ∧
      process_inventory_reserved 3 (λ k, bool_decide (k = 2%nat)) "O1" ∅
      = Some (<["O1" := MkPayment 100 "FAILED"]> ∅,
              [Published "payment_exchange" "payment.failed"
                         (PaymentFailed "O1" "Payment failed after retries")],
              log))).
Proof.
  apply (C7_one_payment_row_and_one_event 3 (λ k, bool_decide (k = 2%nat)) "O1" ∅).
  - lia.
  - apply lookup_empty.
Defined.

Example charge_succeeds_at_second_attempt :
  process_inventory_reserved 3 (λ k, bool_decide (k = 2%nat)) "O1" ∅
  = Some (<["O1" := MkPayment 100 "PROCESSED"]> ∅, [processed_message "O1"], MkLog 2 [2]).
Proof. reflexivity. Qed.

Example charge_fails_three_times :
  process_inventory_reserved 3 (λ _, false) "O1" ∅
  = Some (<["O1" := MkPayment 100 "FAILED"]> ∅, [failed_message "O1"], MkLog 3 [2; 2]).
Proof. reflexivity. Qed.

End PaymentFacts.

(** * Properties of the order participant *)

Module OrderFacts.
Import OrderService.

Lemma update_order_status_found oid new_status now (orders : gmap string Order) o :
  orders !! oid = Some o →
  update_order_status oid new_status now orders
  = (<[oid := with_status new_status now o]> orders, Some (with_status new_status now o)).
Proof. intros Hget. unfold update_order_status. by rewrite Hget. Qed.

Lemma update_order_status_missing oid new_status now (orders : gmap string Order) :
  orders !! oid = None →
  update_order_status oid new_status now orders = (orders, None).
Proof. intros Hget. unfold update_order_status. by rewrite Hget. Qed.

(** C6. For an order present in the order table: PaymentProcessed sets its
    status to COMPLETED and publishes OrderConfirmed with the total amount of the
    order; PaymentFailed sets its status to CANCELLED and publishes
    OrderCancelled with the reason Payment Failed; InventoryUnavailable sets its
    status to CANCELLED and publishes OrderCancelled with the reason Inventory
    Unavailable.  In each case the other columns of the order keep their values,
    but for the update time, and the other orders are untouched. *)
Theorem C6_outcome_events_move_the_order (oid : string) (now : Z)
    (orders : gmap string OrderService.Order) (o : OrderService.Order) :
  orders !! oid = Some o →
  process_payment_processed oid now orders
  = (<[oid := with_status COMPLETED now o]> orders,
     [Published "order_exchange" "order.confirmed" (OrderConfirmed oid (total_amount o))])
  ∧
  process_payment_failed oid now orders
  = (<[oid := with_status CANCELLED now o]> orders,
     [Published "order_exchange" "order.cancelled" (OrderCancelled oid "Payment Failed")])
  ∧
  process_inventory_unavailable oid now orders
  = (<[oid := with_status CANCELLED now o]> orders,
     [Published "order_exchange" "order.cancelled"
                (OrderCancelled oid "Inventory Unavailable")]).
Proof.
  intros Hget.
  unfold process_payment_processed, process_payment_failed,
    process_inventory_unavailable.
  by rewrite !(update_order_status_found _ _ _ _ o Hget).
Qed.

Lemma C6_outcome_events_move_the_order_witness :
  let o := MkOrder "cust-123" "[]" 100 PENDING 0 0 in
  process_payment_processed "O1" 5 {[ "O1" := o ]}
  = (<["O1" := with_status COMPLETED 5 o]> {[ "O1" := o ]},
     [Published "order_exchange" "order.confirmed" (OrderConfirmed "O1" (total_amount o))])
  ∧
  process_payment_failed "O1" 5 {[ "O1" := o ]}
  = (<["O1" := with_status CANCELLED 5 o]> {[ "O1" := o ]},
     [Published "order_exchange" "order.cancelled" (OrderCancelled "O1" "Payment Failed")])
  ∧
  process_inventory_unavailable "O1" 5 {[ "O1" := o ]}
  = (<["O1" := with_status CANCELLED 5 o]> {[ "O1" := o ]},
     [Published "order_exchange" "order.cancelled"
                (OrderCancelled "O1" "Inventory Unavailable")]).
Proof.
  intros o. apply (C6_outcome_events_move_the_order "O1" 5 {[ "O1" := o ]} o).
  apply lookup_singleton_eq.
Defined.

(** C10. For an order id that is not in the order table, each of the three
    handlers returns the table it was given and publishes nothing. *)
Theorem C10_unknown_order_is_ignored (oid : string) (now : Z)
    (orders : gmap string OrderService.Order) :
  orders !! oid = None →
  process_payment_processed oid now orders = (orders, []) ∧
  process_payment_failed oid now orders = (orders, []) ∧
  process_inventory_unavailable oid now orders = (orders, []).
Proof.
  intros Hget.
  unfold process_payment_processed, process_payment_failed,
    process_inventory_unavailable.
  by rewrite !(update_order_status_missing _ _ _ _ Hget).
Qed.

Lemma C10_unknown_order_is_ignored_witness :
  process_payment_processed "O2" 5 {[ "O1" := MkOrder "cust-123" "[]" 100 PENDING 0 0 ]}
  = ({[ "O1" := MkOrder "cust-123" "[]" 100 PENDING 0 0 ]}, []) ∧
  process_payment_failed "O2" 5 {[ "O1" := MkOrder "cust-123" "[]" 100 PENDING 0 0 ]}
  = ({[ "O1" := MkOrder "cust-123" "[]" 100 PENDING 0 0 ]}, []) ∧
  process_inventory_unavailable "O2" 5 {[ "O1" := MkOrder "cust-123" "[]" 100 PENDING 0 0 ]}
  = ({[ "O1" := MkOrder "cust-123" "[]" 100 PENDING 0 0 ]}, []).
Proof.
  apply C10_unknown_order_is_ignored. by apply lookup_singleton_ne.
Defined.

(** ** Redelivery *)

Lemma on_message_found (m : IncomingMessage) now (orders : gmap string Order) o :
  order_event m →
  orders !! body_order_id m = Some o →
  ∃ new_status pub,
    on_message m now orders
    = (<[body_order_id m := with_status new_status now o]> orders, [pub]) ∧
    ∀ now' (orders' : gmap string Order) o',
      orders' !! body_order_id m = Some o' →
      total_amount o' = total_amount o →
      on_message m now' orders'
      = (<[body_order_id m := with_status new_status now' o']> orders', [pub]).
Proof.
  destruct m as [key oid]. unfold order_event. simpl.
  intros [-> | [-> | ->]] Hget; unfold on_message; simpl.
  - exists CANCELLED. eexists. split.
    + unfold process_inventory_unavailable.
      by rewrite (update_order_status_found _ _ _ _ o Hget).
    + intros now' orders' o' Hget' _. unfold process_inventory_unavailable.
      by rewrite (update_order_status_found _ _ _ _ o' Hget').
  - exists COMPLETED. eexists. split.
    + unfold process_payment_processed.
      by rewrite (update_order_status_found _ _ _ _ o Hget).
    + intros now' orders' o' Hget' Htotal. unfold process_payment_processed.
      rewrite (update_order_status_found _ _ _ _ o' Hget'). simpl.
      by rewrite Htotal.
  - exists CANCELLED. eexists. split.
    + unfold process_payment_failed.
      by rewrite (update_order_status_found _ _ _ _ o Hget).
    + intros now' orders' o' Hget' _. unfold process_payment_failed.
      by rewrite (update_order_status_found _ _ _ _ o' Hget').
Qed.

(** C5, as the code has it.  Delivering an outcome event (InventoryUnavailable,
    PaymentProcessed, PaymentFailed) again for an order it was already applied
    to applies the transition again: the handler does not look at the status the
    order has (it returns the same result whatever status and update time are
    stored), it writes the same status once more, so that the order keeps the
    status and the other columns the first delivery left, except for the update
    time, which becomes the time of the second delivery, and it publishes the
    same outbound event a second time. *)
Theorem C5_redelivery_applies_the_transition_again (m : OrderService.IncomingMessage)
    (now now' : Z) (orders : gmap string OrderService.Order) (o : OrderService.Order) :
  order_event m →
  orders !! body_order_id m = Some o →
  let first := on_message m now orders in
  let second := on_message m now' first.1 in
  ∃ new_status pub,
    first = (<[body_order_id m := with_status new_status now o]> orders, [pub]) ∧
    second = (<[body_order_id m := with_status new_status now' o]> first.1, [pub]) ∧
    ∀ stored_status stored_time,
      on_message m now' (<[body_order_id m := with_status stored_status stored_time o]> orders)
      = (<[body_order_id m := with_status new_status now' o]> orders, [pub]).
Proof.
  intros Hev Hget first second.
  destruct (on_message_found m now orders o Hev Hget) as (new_status & pub & Hfirst & Hany).
  exists new_status, pub. subst first second. split_and!.
  - done.
  - rewrite Hfirst. simpl.
    rewrite (Hany now' _ (with_status new_status now o)); [done| |done].
    apply lookup_insert_eq.
  - intros stored_status stored_time.
    rewrite (Hany now' _ (with_status stored_status stored_time o)); [|apply lookup_insert_eq|done].
    by rewrite insert_insert_eq.
Qed.

Lemma C5_redelivery_applies_the_transition_again_witness :
  ∃ new_status pub,
    on_message (Message "payment.processed" "O1") 1
               {[ "O1" := MkOrder "cust-123" "[]" 100 PENDING 0 0 ]}
    = (<["O1" := with_status new_status 1 (MkOrder "cust-123" "[]" 100 PENDING 0 0)]>
         {[ "O1" := MkOrder "cust-123" "[]" 100 PENDING 0 0 ]}, [pub]) ∧
    on_message (Message "payment.processed" "O1") 2
               (on_message (Message "payment.processed" "O1") 1
                           {[ "O1" := MkOrder "cust-123" "[]" 100 PENDING 0 0 ]}).1
    = (<["O1" := with_status new_status 2 (MkOrder "cust-123" "[]" 100 PENDING 0 0)]>
         (on_message (Message "payment.processed" "O1") 1
                     {[ "O1" := MkOrder "cust-123" "[]" 100 PENDING 0 0 ]}).1, [pub]) ∧
    ∀ stored_status stored_time,
      on_message (Message "payment.processed" "O1") 2
        (<["O1" := with_status stored_status stored_time
                     (MkOrder "cust-123" "[]" 100 PENDING 0 0)]>
           {[ "O1" := MkOrder "cust-123" "[]" 100 PENDING 0 0 ]})
      = (<["O1" := with_status new_status 2 (MkOrder "cust-123" "[]" 100 PENDING 0 0)]>
           {[ "O1" := MkOrder "cust-123" "[]" 100 PENDING 0 0 ]}, [pub]).
Proof.
  apply (C5_redelivery_applies_the_transition_again
           (Message "payment.processed" "O1") 1 2
           {[ "O1" := MkOrder "cust-123" "[]" 100 PENDING 0 0 ]}
           (MkOrder "cust-123" "[]" 100 PENDING 0 0)).
  - right. left. reflexivity.
  - apply lookup_singleton_eq.
Defined.

(** The claim of C5 as the specification words it fails: a PENDING order that
    has handled PaymentProcessed at time 1 and receives it again at time 2 has
    its update time rewritten and OrderConfirmed published once more. *)
Lemma C5_redelivery_is_not_a_no_op :
  ¬ redelivery_is_no_op (Message "payment.processed" "O1") 1 2
      {[ "O1" := MkOrder "cust-123" "[]" 100 PENDING 0 0 ]}.
Proof.
  unfold redelivery_is_no_op. intros Hnoop.
  apply (f_equal snd) in Hnoop. vm_compute in Hnoop. discriminate Hnoop.
Qed.

Example redelivery_rewrites_the_update_time :
  let orders : gmap string Order := {[ "O1" := MkOrder "cust-123" "[]" 100 PENDING 0 0 ]} in
  let first := on_message (Message "payment.processed" "O1") 1 orders in
  let second := on_message (Message "payment.processed" "O1") 2 first.1 in
  first.1 !! "O1" = Some (MkOrder "cust-123" "[]" 100 COMPLETED 0 1) ∧
  second.1 !! "O1" = Some (MkOrder "cust-123" "[]" 100 COMPLETED 0 2) ∧
  first.2 = [confirmed_message "O1" 100] ∧
  second.2 = [confirmed_message "O1" 100].
Proof. by vm_compute. Qed.

End OrderFacts.

(** * The inventory books balance *)

Module LedgerFacts.
Import InventoryService InventoryLedger InventoryFacts.

Lemma reserved_quantity_app p rows1 rows2 :
  reserved_quantity p (rows1 ++ rows2) = reserved_quantity p rows1 + reserved_quantity p rows2.
Proof.
  induction rows1 as [|r rows1 IH]; simpl; [done|]. case_decide; lia.
Qed.

Lemma reserved_quantity_split oid p rows :
  reserved_quantity p rows
  = reserved_quantity p (reservations_of oid rows)
    + reserved_quantity p (delete_reservations oid rows).
Proof.
  unfold reservations_of, delete_reservations.
  induction rows as [|r rows IH]; [done|].
  destruct (decide (order_id r = oid)) as [Heq|Hne].
  - rewrite filter_cons_True by done.
    rewrite (filter_cons_False (λ r, order_id r ≠ oid)) by (intros Hne; by apply Hne).
    simpl. case_decide; lia.
  - rewrite filter_cons_False by done.
    rewrite (filter_cons_True (λ r, order_id r ≠ oid)) by done.
    simpl. case_decide; lia.
Qed.

(** What the decrement loop leaves for a product: its stock less everything
    the rows ask of it, a row named twice counting twice. *)
Lemma decrement_stock_lookup (inv inv' : gmap string Z) rs p :
  decrement_stock inv rs = Ok inv' →
  inv' !! p = (λ stock, stock - reserved_quantity p rs) <$> inv !! p.
Proof.
  revert inv. induction rs as [|r rs IH]; intros inv; simpl.
  - intros [= <-]. destruct (inv !! p); simpl; [f_equal; lia|done].
  - destruct (inv !! product_id r) as [s|] eqn:Hget; [|done].
    intros Hdec. rewrite (IH _ Hdec). case_decide as Heq.
    + subst p. rewrite lookup_insert_eq, Hget. simpl. f_equal. lia.
    + by rewrite lookup_insert_ne.
Qed.

Lemma release_one_lookup (inv : gmap string Z) r p :
  release_one inv r !! p
  = (λ stock, if decide (product_id r = p) then stock + quantity r else stock) <$> inv !! p.
Proof.
  unfold release_one. case_decide as Heq.
  - subst p. destruct (inv !! product_id r) as [s|] eqn:Hget.
    + by rewrite lookup_insert_eq.
    + by rewrite Hget.
  - destruct (inv !! product_id r) as [s|] eqn:Hget.
    + rewrite lookup_insert_ne by done. by destruct (inv !! p).
    + by destruct (inv !! p).
Qed.

Lemma release_stock_lookup (inv : gmap string Z) rs p :
  release_stock inv rs !! p = (λ stock, stock + reserved_quantity p rs) <$> inv !! p.
Proof.
  unfold release_stock. revert inv. induction rs as [|r rs IH]; intros inv; simpl.
  - destruct (inv !! p); simpl; [f_equal; lia|done].
  - rewrite IH, release_one_lookup.
    destruct (inv !! p); simpl; [|done]. f_equal. case_decide; lia.
Qed.

Lemma process_order_created_total oid items db p :
  total_quantity (process_order_created oid items db).1 p = total_quantity db p.
Proof.
  destruct (process_order_created_outcome oid items db)
    as [_|_ _|inv' _ _ _ Hdec]; simpl; [done..|].
  unfold total_quantity. simpl.
  rewrite (decrement_stock_lookup _ _ _ p Hdec), reserved_quantity_app.
  destruct (inventory db !! p); simpl; [f_equal; lia|done].
Qed.

Lemma process_order_cancelled_total oid db p :
  total_quantity (process_order_cancelled oid db).1 p = total_quantity db p.
Proof.
  rewrite process_order_cancelled_store. unfold total_quantity. simpl.
  rewrite release_stock_lookup.
  rewrite (reserved_quantity_split oid p (inventory_reservations db)).
  destruct (inventory db !! p); simpl; [f_equal; lia|done].
Qed.

Lemma on_message_total m db p :
  total_quantity (on_message m db).1 p = total_quantity db p.
Proof.
  unfold on_message. repeat case_decide.
  - apply process_order_created_total.
  - apply process_order_cancelled_total.
  - done.
Qed.

(** X1. Whatever the deliveries on the inventory queue (any routing keys, any
    items and quantities, any repetition), the stock on hand of a product plus
    the quantity its reservation rows hold is the same after the sequence as
    before it: the handlers move quantity between the stock and the
    reservations and neither create nor lose any. *)
Theorem X1_stock_plus_reserved_is_conserved (ms : list InventoryService.IncomingMessage)
    (db : InventoryService.Db) (p : string) :
  total_quantity (run ms db) p = total_quantity db p.
Proof.
  unfold run. revert db. induction ms as [|m ms IH]; intros db; simpl; [done|].
  rewrite IH. apply on_message_total.
Qed.

(** ** The constraints of the tables *)

Lemma NoDup_pk_filter (P : InventoryReservation → Prop) `{!∀ r, Decision (P r)} rows :
  NoDup (pk <$> rows) → NoDup (pk <$> filter P rows).
Proof.
  induction rows as [|r rows IH]; [done|]. csimpl.
  intros [Hfresh Hnd]%NoDup_cons. rewrite filter_cons. case_decide; [|by apply IH].
  csimpl. apply NoDup_cons. split; [|by apply IH].
  intros (r' & Heq & [_ Hr']%list_elem_of_filter)%list_elem_of_fmap.
  apply Hfresh. rewrite Heq. by apply list_elem_of_fmap_2.
Qed.

Lemma process_order_created_dom oid items db :
  dom (inventory (process_order_created oid items db).1) = dom (inventory db).
Proof.
  destruct (process_order_created_outcome oid items db)
    as [_|_ _|inv' _ _ _ Hdec]; simpl; [done..|].
  apply set_eq. intros p. rewrite !elem_of_dom.
  rewrite (decrement_stock_lookup _ _ _ p Hdec). by rewrite fmap_is_Some.
Qed.

Lemma process_order_cancelled_dom oid db :
  dom (inventory (process_order_cancelled oid db).1) = dom (inventory db).
Proof.
  rewrite process_order_cancelled_store. simpl.
  apply set_eq. intros p. rewrite !elem_of_dom.
  rewrite release_stock_lookup. by rewrite fmap_is_Some.
Qed.

Lemma on_message_dom m db :
  dom (inventory (on_message m db).1) = dom (inventory db).
Proof.
  unfold on_message. repeat case_decide.
  - apply process_order_created_dom.
  - apply process_order_cancelled_dom.
  - done.
Qed.

Lemma foreign_key_ok_dom db db' :
  dom (inventory db') = dom (inventory db) →
  Forall (λ r, is_Some (inventory db !! product_id r)) (inventory_reservations db') →
  foreign_key_ok db'.
Proof.
  intros Hdom Hall. unfold foreign_key_ok.
  eapply Forall_impl; [exact Hall|]. intros r Hr. simpl in Hr.
  apply elem_of_dom. rewrite Hdom. by apply elem_of_dom.
Qed.

Lemma on_message_constraints m db :
  primary_key_ok db → foreign_key_ok db →
  primary_key_ok (on_message m db).1 ∧ foreign_key_ok (on_message m db).1.
Proof.
  intros Hpk Hfk. split.
  - unfold on_message. repeat case_decide; [| |done].
    + destruct (process_order_created_outcome (body_order_id m) (body_items m) db)
        as [_|_ _|inv' _ Hnd Hfree _]; simpl; [done..|].
      unfold primary_key_ok. simpl. rewrite fmap_app. apply NoDup_app. split_and!.
      * done.
      * intros k Hk (r & -> & (item & -> & Hitem)%list_elem_of_fmap)%list_elem_of_fmap.
        by apply (Hfree item Hitem).
      * rewrite pk_reservation_of_item. apply NoDup_fmap_2; [|done].
        by intros p1 p2 [= ->].
    + rewrite process_order_cancelled_store. unfold primary_key_ok. simpl.
      by apply NoDup_pk_filter.
  - apply (foreign_key_ok_dom db); [apply on_message_dom|].
    unfold on_message. repeat case_decide; [| |done].
    + destruct (process_order_created_outcome (body_order_id m) (body_items m) db)
        as [_|_ _|inv' Hcov _ _ _]; simpl; [done..|].
      apply Forall_app. split; [done|]. apply Forall_fmap.
      eapply Forall_impl; [exact Hcov|]. intros item (stock & Hget & _). simpl. by eexists.
    + rewrite process_order_cancelled_store. simpl. by apply Forall_filter_keep.
Qed.

(** X2. The two constraints [models.py] puts on the reservation table are kept
    by every sequence of deliveries: if no two rows share a key
    (order_id, product_id) and every row names a product that has an inventory
    row, the same holds after the sequence. *)
Theorem X2_table_constraints_are_kept (ms : list InventoryService.IncomingMessage)
    (db : InventoryService.Db) :
  primary_key_ok db → foreign_key_ok db →
  primary_key_ok (run ms db) ∧ foreign_key_ok (run ms db).
Proof.
  unfold run. revert db. induction ms as [|m ms IH]; intros db Hpk Hfk; simpl; [done|].
  destruct (on_message_constraints m db Hpk Hfk) as [Hpk' Hfk']. by apply IH.
Qed.

Lemma X2_table_constraints_are_kept_witness :
  primary_key_ok
    (run [Message "order.created" "O1" [MkItem "product-A" 2; MkItem "product-B" 1];
          Message "order.created" "O1" [MkItem "product-A" 2];
          Message "order.cancelled" "O1" []] seed_inventory) ∧
  foreign_key_ok
    (run [Message "order.created" "O1" [MkItem "product-A" 2; MkItem "product-B" 1];
          Message "order.created" "O1" [MkItem "product-A" 2];
          Message "order.cancelled" "O1" []] seed_inventory).
Proof.
  apply X2_table_constraints_are_kept.
  - unfold primary_key_ok. simpl. constructor.
  - unfold foreign_key_ok. simpl. constructor.
Defined.

(** X3. No delivery on the inventory queue adds or removes an inventory row:
    the set of products that have a row is the same after any sequence of
    deliveries, also for an OrderCreated that names an unknown product and for
    an OrderCancelled whose reservation names one. *)
Theorem X3_products_are_never_added_or_removed
    (ms : list InventoryService.IncomingMessage) (db : InventoryService.Db) :
  dom (inventory (run ms db)) = dom (inventory db).
Proof.
  unfold run. revert db. induction ms as [|m ms IH]; intros db; simpl; [done|].
  rewrite IH. apply on_message_dom.
Qed.

(** ** When an order is reserved, and what that does *)

Lemma covered_not_unavailable inv item : covered inv item → ¬ unavailable inv item.
Proof. intros (stock & Hget & Hle). unfold unavailable. rewrite Hget. lia. Qed.

Lemma unavailable_not_covered inv item : unavailable inv item → ¬ covered inv item.
Proof. intros Hbad Hcov. by apply (covered_not_unavailable inv item). Qed.

Lemma process_order_created_reserved oid items db :
  Forall (covered (inventory db)) items →
  NoDup (item_product_id <$> items) →
  keys_free oid items db →
  ∃ inv', decrement_stock (inventory db) (reservation_of_item oid <$> items) = Ok inv' ∧
          process_order_created oid items db
          = (MkDb inv' (inventory_reservations db ++ (reservation_of_item oid <$> items)),
             [reserved_message oid]).
Proof.
  intros Hcov Hnd Hfree.
  destruct (decrement_stock_Ok oid items (inventory db)) as (inv' & Hdec & _).
  { eapply Forall_impl; [exact Hcov|]. intros item (stock & -> & _). by eexists. }
  exists inv'. split; [done|].
  unfold process_order_created, order_created_body.
  rewrite check_stock_all_available
    by (eapply Forall_impl; [exact Hcov|]; apply covered_not_unavailable).
  simpl. rewrite Hdec. simpl.
  rewrite insert_reservations_fresh; [done| |].
  - rewrite pk_reservation_of_item. apply NoDup_fmap_2; [|done]. by intros p1 p2 [= ->].
  - intros r (item & -> & Hitem)%list_elem_of_fmap. by apply Hfree.
Qed.

Lemma process_order_created_unavailable oid items db :
  Exists (unavailable (inventory db)) items →
  process_order_created oid items db = (db, [unavailable_message oid]).
Proof.
  intros Hbad. unfold process_order_created, order_created_body.
  by destruct (check_stock_false (inventory db) oid items [] Hbad) as [rs ->].
Qed.

(** X4. What decides the answer of the inventory to an OrderCreated.  It
    publishes InventoryUnavailable exactly when some item names a product with
    no inventory row or with less stock than asked; it publishes
    InventoryReserved exactly when every item can be served from the stock as
    it stands, no product is named twice, and the reservation table holds no
    row of this order for any of the products; in the remaining case (every
    item can be served, but a key is taken) it publishes nothing. *)
Theorem X4_answer_to_order_created (oid : string) (items : list InventoryService.Item)
    (db : InventoryService.Db) :
  ((process_order_created oid items db).2 = [unavailable_message oid]
   ↔ Exists (unavailable (inventory db)) items) ∧
  ((process_order_created oid items db).2 = [reserved_message oid]
   ↔ Forall (covered (inventory db)) items ∧ NoDup (item_product_id <$> items)
     ∧ keys_free oid items db) ∧
  ((process_order_created oid items db).2 = []
   ↔ Forall (covered (inventory db)) items
     ∧ ¬ (NoDup (item_product_id <$> items) ∧ keys_free oid items db)).
Proof.
  assert (Hexcl : Exists (unavailable (inventory db)) items →
                  Forall (covered (inventory db)) items → False).
  { intros (item & Hitem & Hbad)%Exists_exists Hcov. rewrite Forall_forall in Hcov.
    by apply (unavailable_not_covered _ item Hbad), Hcov. }
  split_and!; split.
  - destruct (process_order_created_outcome oid items db) as [Hbad|_ _|inv' _ _ _ _];
      simpl; [done|by intros ?|by intros ?].
  - intros Hbad. by rewrite process_order_created_unavailable.
  - destruct (process_order_created_outcome oid items db) as [_|_ _|inv' Hcov Hnd Hfree _];
      simpl; [by intros ?|by intros ?|done].
  - intros (Hcov & Hnd & Hfree).
    by destruct (process_order_created_reserved oid items db Hcov Hnd Hfree) as (inv' & _ & ->).
  - destruct (process_order_created_outcome oid items db) as [_|Hcov Hins|inv' _ _ _ _];
      simpl; [by intros ?| |by intros ?].
    intros _. split; [done|]. intros [Hnd Hfree].
    destruct (process_order_created_reserved oid items db Hcov Hnd Hfree) as (inv' & _ & Hres).
    unfold process_order_created, order_created_body in Hres.
    rewrite check_stock_all_available in Hres
      by (eapply Forall_impl; [exact Hcov|]; apply covered_not_unavailable).
    simpl in Hres. rewrite Hins in Hres.
    destruct (decrement_stock _ _); simpl in Hres; discriminate.
  - intros [Hcov Hnot].
    destruct (process_order_created_outcome oid items db) as [Hbad|_ _|inv' _ Hnd Hfree _];
      simpl; [|done|].
    + destruct (Hexcl Hbad Hcov).
    + destruct Hnot. by split.
Qed.

Lemma reserved_quantity_absent oid (items : list Item) p :
  p ∉ item_product_id <$> items →
  reserved_quantity p (reservation_of_item oid <$> items) = 0.
Proof.
  induction items as [|item items IH]; csimpl; [done|].
  intros [Hne Hrest]%not_elem_of_cons. rewrite decide_False by done. by apply IH.
Qed.

Lemma reserved_quantity_item oid (items : list Item) item :
  NoDup (item_product_id <$> items) → item ∈ items →
  reserved_quantity (item_product_id item) (reservation_of_item oid <$> items)
  = item_quantity item.
Proof.
  induction items as [|item' items IH]; csimpl; [by intros _ ?%elem_of_nil|].
  intros [Hfresh Hnd]%NoDup_cons [->|Hin]%elem_of_cons.
  - rewrite decide_True by done. rewrite reserved_quantity_absent by done. lia.
  - rewrite decide_False; [by apply IH|].
    intros Heq. apply Hfresh. rewrite Heq. by apply list_elem_of_fmap_2.
Qed.

(** X5. What a reservation does.  When the handler of OrderCreated publishes
    InventoryReserved, the store it leaves has exactly one new reservation row
    per item, in the order of the items, after the rows that were there; the
    stock of the product of every item is lower by exactly the quantity of the
    item; and the stock of every product the order does not name is
    untouched. *)
Theorem X5_effect_of_a_reservation (oid : string) (items : list InventoryService.Item)
    (db : InventoryService.Db) :
  (process_order_created oid items db).2 = [reserved_message oid] →
  let db' := (process_order_created oid items db).1 in
  inventory_reservations db'
  = inventory_reservations db ++ (reservation_of_item oid <$> items) ∧
  (∀ item, item ∈ items →
     inventory db' !! item_product_id item
     = (λ stock, stock - item_quantity item) <$> inventory db !! item_product_id item ∧
     is_Some (inventory db !! item_product_id item)) ∧
  (∀ p, p ∉ item_product_id <$> items → inventory db' !! p = inventory db !! p).
Proof.
  destruct (process_order_created_outcome oid items db) as [_|_ _|inv' Hcov Hnd _ Hdec];
    simpl; [by intros ?|by intros ?|intros _].
  split_and!; [done| |].
  - intros item Hitem.
    rewrite (decrement_stock_lookup _ _ _ _ Hdec), reserved_quantity_item by done.
    split; [done|]. rewrite Forall_forall in Hcov.
    destruct (Hcov item Hitem) as (stock & -> & _). by eexists.
  - intros p Hp.
    rewrite (decrement_stock_lookup _ _ _ _ Hdec), reserved_quantity_absent by done.
    destruct (inventory db !! p); simpl; [f_equal; lia|done].
Qed.

Lemma X5_effect_of_a_reservation_witness :
  let db' := (process_order_created "O1" [MkItem "product-A" 2; MkItem "product-B" 5]
                                    seed_inventory).1 in
  inventory_reservations db'
  = inventory_reservations seed_inventory
    ++ (reservation_of_item "O1" <$> [MkItem "product-A" 2; MkItem "product-B" 5]) ∧
  (∀ item, item ∈ [MkItem "product-A" 2; MkItem "product-B" 5] →
     inventory db' !! item_product_id item
     = (λ stock, stock - item_quantity item) <$> inventory seed_inventory !! item_product_id item ∧
     is_Some (inventory seed_inventory !! item_product_id item)) ∧
  (∀ p, p ∉ item_product_id <$> [MkItem "product-A" 2; MkItem "product-B" 5] →
        inventory db' !! p = inventory seed_inventory !! p).
Proof.
  apply (X5_effect_of_a_reservation "O1" [MkItem "product-A" 2; MkItem "product-B" 5]
           seed_inventory).
  reflexivity.
Defined.

(** ** Redelivery and other orders *)

Lemma process_order_created_reserved_inv oid items db :
  (process_order_created oid items db).2 = [reserved_message oid] →
  Forall (covered (inventory db)) items ∧ NoDup (item_product_id <$> items)
  ∧ keys_free oid items db.
Proof.
  by destruct (process_order_created_outcome oid items db) as [_|_ _|inv' ? ? ? _].
Qed.

(** X6. An OrderCreated delivered again after it was reserved reserves nothing
    more: the second delivery returns the store the first one left (no second
    decrement, no second row), and unless the order has no item at all it does
    not publish InventoryReserved again. *)
Theorem X6_order_created_again_reserves_nothing (oid : string)
    (items : list InventoryService.Item) (db : InventoryService.Db) :
  (process_order_created oid items db).2 = [reserved_message oid] →
  let db' := (process_order_created oid items db).1 in
  (process_order_created oid items db').1 = db' ∧
  (items ≠ [] → (process_order_created oid items db').2 ≠ [reserved_message oid]).
Proof.
  destruct (process_order_created_outcome oid items db) as [_|_ _|inv' _ _ _ Hdec];
    simpl; [by intros ?|by intros ?|intros _].
  set (db' := MkDb inv' (inventory_reservations db ++ (reservation_of_item oid <$> items))).
  assert (Htaken : items ≠ [] → ¬ keys_free oid items db').
  { destruct items as [|item items]; [done|]. intros _ Hfree.
    apply (Hfree item); [by left|]. unfold db'. simpl. rewrite fmap_app.
    apply elem_of_app. right. csimpl. by left. }
  split.
  - destruct (process_order_created_outcome oid items db') as [_|_ _|inv'' _ _ Hfree Hdec'];
      simpl; [done..|].
    destruct items as [|item items].
    + simpl in *. injection Hdec' as <-. unfold db'. simpl. by rewrite !app_nil_r.
    + destruct Htaken; done.
  - intros Hne Hres. apply (Htaken Hne).
    by apply (process_order_created_reserved_inv oid items db').
Qed.

Lemma X6_order_created_again_reserves_nothing_witness :
  let db' := (process_order_created "O1" [MkItem "product-A" 6] seed_inventory).1 in
  (process_order_created "O1" [MkItem "product-A" 6] db').1 = db' ∧
  ([MkItem "product-A" 6] ≠ [] →
   (process_order_created "O1" [MkItem "product-A" 6] db').2 ≠ [reserved_message "O1"]).
Proof.
  apply (X6_order_created_again_reserves_nothing "O1" [MkItem "product-A" 6] seed_inventory).
  reflexivity.
Defined.

Lemma reservations_of_own_rows oid oid' (items : list Item) :
  oid' ≠ oid → reservations_of oid' (reservation_of_item oid <$> items) = [].
Proof.
  intros Hne. apply filter_none. intros r (item & -> & _)%list_elem_of_fmap. simpl. congruence.
Qed.

(** X7. A delivery touches the reservation rows of its own order only: after
    an OrderCreated or an OrderCancelled for an order id (or a delivery with any
    other routing key), the rows of every other order are the rows it had, in
    the same order. *)
Theorem X7_rows_of_other_orders_are_untouched (m : InventoryService.IncomingMessage)
    (db : InventoryService.Db) (oid' : string) :
  oid' ≠ body_order_id m →
  reservations_of oid' (inventory_reservations (on_message m db).1)
  = reservations_of oid' (inventory_reservations db).
Proof.
  intros Hne. unfold on_message. repeat case_decide; [| |done].
  - destruct (process_order_created_outcome (body_order_id m) (body_items m) db)
      as [_|_ _|inv' _ _ _ _]; simpl; [done..|].
    unfold reservations_of at 1. rewrite filter_app.
    fold (reservations_of oid' (inventory_reservations db)).
    fold (reservations_of oid' (reservation_of_item (body_order_id m) <$> body_items m)).
    by rewrite reservations_of_own_rows, app_nil_r.
  - rewrite process_order_cancelled_store. simpl.
    unfold reservations_of, delete_reservations. rewrite list_filter_filter.
    apply list_filter_iff. intros r. split; [by intros [? _]|].
    intros Heq. split; [done|]. congruence.
Qed.

Lemma X7_rows_of_other_orders_are_untouched_witness :
  reservations_of "O2"
    (inventory_reservations
       (on_message (Message "order.cancelled" "O1" [])
                   (MkDb ∅ [Reservation "O1" "product-A" 1; Reservation "O2" "product-A" 2])).1)
  = reservations_of "O2" [Reservation "O1" "product-A" 1; Reservation "O2" "product-A" 2].
Proof.
  apply (X7_rows_of_other_orders_are_untouched
           (Message "order.cancelled" "O1" [])
           (MkDb ∅ [Reservation "O1" "product-A" 1; Reservation "O2" "product-A" 2]) "O2").
  done.
Defined.

(** X8. Compensation of a whole order.  For an order id that has no
    reservation row, handling OrderCreated and then OrderCancelled gives back
    the store exactly as it was (every stock and the whole reservation table),
    whatever the number of items and whichever answer the OrderCreated got:
    reserved, turned down, or refused at the commit. *)
Theorem X8_created_then_cancelled_gives_the_store_back (oid : string)
    (items : list InventoryService.Item) (db : InventoryService.Db) :
  reservations_of oid (inventory_reservations db) = [] →
  (process_order_cancelled oid (process_order_created oid items db).1).1 = db.
Proof. apply cancel_after_created_restores_store. Qed.

Lemma X8_created_then_cancelled_gives_the_store_back_witness :
  (process_order_cancelled "O1"
     (process_order_created "O1" [MkItem "product-A" 6; MkItem "product-B" 5]
                            seed_inventory).1).1
  = seed_inventory.
Proof.
  apply (X8_created_then_cancelled_gives_the_store_back "O1"
           [MkItem "product-A" 6; MkItem "product-B" 5] seed_inventory).
  reflexivity.
Defined.

(** X9. What the inventory consumer can publish.  A delivery publishes at most
    one message; when it does, the routing key of the delivery was
    order.created and the message is InventoryReserved or InventoryUnavailable
    for the order id of the delivery, on the inventory exchange.  An
    OrderCancelled never publishes, and a delivery with any other routing key
    neither publishes nor changes the store. *)
Theorem X9_what_a_delivery_publishes (m : InventoryService.IncomingMessage)
    (db : InventoryService.Db) :
  ((on_message m db).2 = [] ∨
   (routing_key m = "order.created" ∧
    ((on_message m db).2 = [Published "inventory_exchange" "inventory.reserved"
                                      (InventoryReserved (body_order_id m))] ∨
     (on_message m db).2 = [Published "inventory_exchange" "inventory.unavailable"
                                      (InventoryUnavailable (body_order_id m)
                                                            "Insufficient stock")]))) ∧
  (routing_key m ≠ "order.created" → (on_message m db).2 = []) ∧
  (routing_key m ≠ "order.created" → routing_key m ≠ "order.cancelled" →
   on_message m db = (db, [])).
Proof.
  unfold on_message. split_and!.
  - case_decide as Hkey.
    + destruct (process_order_created_outcome (body_order_id m) (body_items m) db)
        as [_|_ _|inv' _ _ _ _]; simpl; auto.
    + left. case_decide; [|done]. unfold process_order_cancelled.
      by destruct (reservations_of _ _).
  - intros Hkey. rewrite decide_False by done. case_decide; [|done].
    unfold process_order_cancelled. by destruct (reservations_of _ _).
  - intros Hkey1 Hkey2. by rewrite !decide_False by done.
Qed.

End LedgerFacts.

(** * More on the payment participant *)

Module PaymentLedgerFacts.
Import PaymentService PaymentFacts.

Lemma retry_call_simulate_result fuel draw n slept r log :
  retry_call fuel (stop_after_attempt 3) (wait_exponential 1 2 10) (simulate_once draw) n slept
  = Some (r, log) →
  r = Ok true ∨ r = Raise RetryError.
Proof.
  revert n slept. induction fuel as [|fuel IH]; intros n slept; simpl; [done|].
  unfold simulate_once at 1. destruct (draw n).
  - intros [= <- _]. by left.
  - destruct (stop_after_attempt 3 n).
    + intros [= <- _]. by right.
    + apply IH.
Qed.

(** The ways [process_inventory_reserved] can end. *)
Lemma process_inventory_reserved_cases fuel draw oid (payments payments' : gmap string Payment)
    pubs log :
  process_inventory_reserved fuel draw oid payments = Some (payments', pubs, log) →
  (is_Some (payments !! oid) ∧ payments' = payments ∧ pubs = [] ∧ log = MkLog 0 []) ∨
  (payments !! oid = None ∧
   ((payments' = <[oid := MkPayment 100 "PROCESSED"]> payments ∧ pubs = [processed_message oid]) ∨
    (payments' = <[oid := MkPayment 100 "FAILED"]> payments ∧ pubs = [failed_message oid]))).
Proof.
  unfold process_inventory_reserved.
  destruct (payments !! oid) as [p|] eqn:Hget.
  - intros [= <- <- <-]. left. by eauto.
  - destruct (simulate_payment_processing fuel draw) as [[charge log']|] eqn:Hsim; [|done].
    simpl. right. split; [done|].
    destruct (retry_call_simulate_result _ _ _ _ _ _ Hsim) as [-> | ->]; simpl in *.
    + unfold charge_and_record in *. simpl in *. rewrite add_payment_fresh in * by done.
      simpl in *. left. by simplify_eq.
    + unfold record_failure in *. rewrite add_payment_fresh in * by done.
      simpl in *. right. by simplify_eq.
Qed.

(** X10. Handling InventoryReserved twice.  Given fuel for three calls, the
    handler returns, and the table it leaves has a row for the order id,
    whether it found one or inserted one; a second delivery for the same order
    id, with any draws and any fuel, then returns that table unchanged,
    publishes nothing and does not call the charge. *)
Theorem X10_second_reservation_event_is_a_no_op (fuel fuel' : nat) (draw draw' : nat → bool)
    (oid : string) (payments : gmap string PaymentService.Payment) :
  (3 ≤ fuel)%nat →
  ∃ payments' pubs log,
    process_inventory_reserved fuel draw oid payments = Some (payments', pubs, log) ∧
    is_Some (payments' !! oid) ∧
    process_inventory_reserved fuel' draw' oid payments' = Some (payments', [], MkLog 0 []).
Proof.
  intros Hfuel.
  assert (Hret : is_Some (process_inventory_reserved fuel draw oid payments)).
  { unfold process_inventory_reserved. destruct (payments !! oid) eqn:Hget; [by eexists|].
    rewrite simulate_payment_processing_cases by done.
    destruct (draw 1%nat); [|destruct (draw 2%nat); [|destruct (draw 3%nat)]]; simpl;
      unfold charge_and_record, record_failure, add_payment; simpl;
      rewrite ?Hget; simpl; rewrite ?Hget; by eexists. }
  destruct Hret as [[[payments' pubs] log] Hfirst].
  exists payments', pubs, log. split; [done|].
  assert (Hrow : is_Some (payments' !! oid)).
  { destruct (process_inventory_reserved_cases _ _ _ _ _ _ _ Hfirst)
      as [(Hsome & -> & _)|(_ & [[-> _]|[-> _]])];
      [done|rewrite lookup_insert_eq; by eexists..]. }
  split; [done|]. destruct Hrow as [p Hp].
  unfold process_inventory_reserved. by rewrite Hp.
Qed.

Lemma X10_second_reservation_event_is_a_no_op_witness :
  ∃ payments' pubs log,
    process_inventory_reserved 3 (λ _, false) "O1" ∅ = Some (payments', pubs, log) ∧
    is_Some (payments' !! "O1") ∧
    process_inventory_reserved 0 (λ _, true) "O1" payments'
    = Some (payments', [], MkLog 0 []).
Proof.
  apply (X10_second_reservation_event_is_a_no_op 3 0 (λ _, false) (λ _, true) "O1" ∅). lia.
Defined.

(** X11. What the payment handler can do to the table.  Whenever it returns,
    every row that was in the table is still there with the same amount and
    status (also the row of the order id itself, if there was one), the rows of
    other orders are exactly the rows there were, and the only row that can be
    new is the row of the order id, with the placeholder amount 100 and the
    status PROCESSED when PaymentProcessed is the one message published, or
    FAILED when PaymentFailed is. *)
Theorem X11_payment_rows_are_only_added (fuel : nat) (draw : nat → bool) (oid : string)
    (payments payments' : gmap string PaymentService.Payment)
    (pubs : list published) (log : PaymentService.retry_log) :
  process_inventory_reserved fuel draw oid payments = Some (payments', pubs, log) →
  payments ⊆ payments' ∧
  (∀ oid', oid' ≠ oid → payments' !! oid' = payments !! oid') ∧
  ((payments' = payments ∧ pubs = []) ∨
   (payments !! oid = None ∧ payments' !! oid = Some (MkPayment 100 "PROCESSED") ∧
    pubs = [Published "payment_exchange" "payment.processed" (PaymentProcessed oid 100)]) ∨
   (payments !! oid = None ∧ payments' !! oid = Some (MkPayment 100 "FAILED") ∧
    pubs = [Published "payment_exchange" "payment.failed"
                      (PaymentFailed oid "Payment failed after retries")])).
Proof.
  intros Hrun.
  destruct (process_inventory_reserved_cases _ _ _ _ _ _ _ Hrun)
    as [(_ & -> & -> & _)|(Hnone & [[-> ->]|[-> ->]])].
  - split_and!; [done|done|by left].
  - split_and!.
    + by apply insert_subseteq.
    + intros oid' Hne. by rewrite lookup_insert_ne.
    + right. left. by rewrite lookup_insert_eq.
  - split_and!.
    + by apply insert_subseteq.
    + intros oid' Hne. by rewrite lookup_insert_ne.
    + right. right. by rewrite lookup_insert_eq.
Qed.

Lemma X11_payment_rows_are_only_added_witness :
  ({[ "O0" := MkPayment 100 "FAILED" ]} : gmap string Payment)
    ⊆ <["O1" := MkPayment 100 "PROCESSED"]> {[ "O0" := MkPayment 100 "FAILED" ]} ∧
  (∀ oid', oid' ≠ "O1" →
     (<["O1" := MkPayment 100 "PROCESSED"]> {[ "O0" := MkPayment 100 "FAILED" ]} : gmap string Payment)
       !! oid'
     = ({[ "O0" := MkPayment 100 "FAILED" ]} : gmap string Payment) !! oid') ∧
  ((<["O1" := MkPayment 100 "PROCESSED"]> {[ "O0" := MkPayment 100 "FAILED" ]}
    = ({[ "O0" := MkPayment 100 "FAILED" ]} : gmap string Payment)
    ∧ [processed_message "O1"] = []) ∨
   (({[ "O0" := MkPayment 100 "FAILED" ]} : gmap string Payment) !! "O1" = None ∧
    (<["O1" := MkPayment 100 "PROCESSED"]> {[ "O0" := MkPayment 100 "FAILED" ]}
       : gmap string Payment) !! "O1"
    = Some (MkPayment 100 "PROCESSED") ∧
    [processed_message "O1"]
    = [Published "payment_exchange" "payment.processed" (PaymentProcessed "O1" 100)]) ∨
   (({[ "O0" := MkPayment 100 "FAILED" ]} : gmap string Payment) !! "O1" = None ∧
    (<["O1" := MkPayment 100 "PROCESSED"]> {[ "O0" := MkPayment 100 "FAILED" ]}
       : gmap string Payment) !! "O1"
    = Some (MkPayment 100 "FAILED") ∧
    [processed_message "O1"]
    = [Published "payment_exchange" "payment.failed"
                 (PaymentFailed "O1" "Payment failed after retries")])).
Proof.
  apply (X11_payment_rows_are_only_added 3 (λ _, true) "O1"
           {[ "O0" := MkPayment 100 "FAILED" ]}
           (<["O1" := MkPayment 100 "PROCESSED"]> {[ "O0" := MkPayment 100 "FAILED" ]})
           [processed_message "O1"] (MkLog 1 [])).
  reflexivity.
Defined.

End PaymentLedgerFacts.

(** * Sequences of deliveries on the order queue: facts *)

Module OrderLedgerFacts.
Import OrderService OrderLedger OrderFacts.

Lemma with_status_same (o : Order) : with_status (status o) (updated_at o) o = o.
Proof. by destruct o. Qed.

Lemma with_status_twice st now st' now' (o : Order) :
  with_status st' now' (with_status st now o) = with_status st' now' o.
Proof. done. Qed.

Lemma process_lookup (st : OrderStatus) (now : Z) (orders : gmap string Order) (oid' oid : string) :
  (update_order_status oid' st now orders).1 !! oid
  = (λ o, if decide (oid' = oid) then with_status st now o else o) <$> orders !! oid.
Proof.
  unfold update_order_status. destruct (orders !! oid') as [o'|] eqn:Hget; simpl.
  - destruct (decide (oid' = oid)) as [->|Hne].
    + rewrite lookup_insert_eq, Hget. done.
    + rewrite lookup_insert_ne by done.
      destruct (orders !! oid); done.
  - destruct (decide (oid' = oid)) as [->|Hne].
    + by rewrite Hget.
    + destruct (orders !! oid); done.
Qed.

Lemma handlers_table (oid : string) (now : Z) (orders : gmap string Order) :
  (process_inventory_unavailable oid now orders).1 = (update_order_status oid CANCELLED now orders).1 ∧
  (process_payment_processed oid now orders).1 = (update_order_status oid COMPLETED now orders).1 ∧
  (process_payment_failed oid now orders).1 = (update_order_status oid CANCELLED now orders).1.
Proof.
  unfold process_inventory_unavailable, process_payment_processed, process_payment_failed.
  destruct (update_order_status oid CANCELLED now orders) as [? [?|]];
    destruct (update_order_status oid COMPLETED now orders) as [? [?|]]; done.
Qed.

(** One delivery, seen from one order id. *)
Lemma on_message_lookup (m : IncomingMessage) (now : Z) (orders : gmap string Order)
    (oid : string) :
  (on_message m now orders).1 !! oid
  = (λ o, if decide (body_order_id m = oid) then
            match target_status (routing_key m) with
            | Some st => with_status st now o
            | None => o
            end
          else o) <$> orders !! oid.
Proof.
  destruct (handlers_table (body_order_id m) now orders) as (Hu & Hp & Hf).
  unfold on_message, target_status.
  destruct (decide (routing_key m = "inventory.unavailable"));
    [rewrite Hu; apply process_lookup|].
  destruct (decide (routing_key m = "payment.processed"));
    [rewrite Hp; apply process_lookup|].
  destruct (decide (routing_key m = "payment.failed"));
    [rewrite Hf; apply process_lookup|].
  simpl. destruct (orders !! oid); simpl; [|done]. by case_decide.
Qed.

Lemma run_cons d ds (orders : gmap string Order) :
  run (d :: ds) orders = run ds (on_message d.1 d.2 orders).1.
Proof. done. Qed.

Lemma run_snoc ds d (orders : gmap string Order) :
  run (ds ++ [d]) orders = (on_message d.1 d.2 (run ds orders)).1.
Proof. unfold run. by rewrite foldl_app. Qed.

Lemma stamp_after_snoc oid ds d stamp :
  stamp_after oid (ds ++ [d]) stamp
  = let stamp' := stamp_after oid ds stamp in
    if decide (body_order_id d.1 = oid) then
      match target_status (routing_key d.1) with
      | Some new_status => (new_status, d.2)
      | None => stamp'
      end
    else stamp'.
Proof. unfold stamp_after. by rewrite foldl_app. Qed.

(** The table after a sequence of deliveries, seen from one order id. *)
Lemma run_lookup (ds : list (IncomingMessage * Z)) (orders : gmap string Order) (oid : string) :
  run ds orders !! oid
  = (λ o, let stamp := stamp_after oid ds (status o, updated_at o) in
          with_status stamp.1 stamp.2 o) <$> orders !! oid.
Proof.
  induction ds as [|d ds IH] using rev_ind.
  - simpl. destruct (orders !! oid) as [o|]; simpl; [|done].
    by rewrite with_status_same.
  - rewrite run_snoc, on_message_lookup, IH.
    destruct (orders !! oid) as [o|]; simpl; [|done].
    rewrite stamp_after_snoc. simpl.
    case_decide; [|done].
    destruct (target_status (routing_key d.1)); done.
Qed.

Lemma target_status_order_event (m : IncomingMessage) :
  order_event m ↔ is_Some (target_status (routing_key m)).
Proof.
  unfold order_event, target_status. repeat case_decide; split;
    try (intros _; eauto; fail); try (intros [? [=]]; fail); intros [|[|]]; done.
Qed.

(** X12. Whatever sequence of deliveries the order consumer handles, it never
    creates or deletes an order, and of an order it only ever writes the status
    and the update time: these two are the ones of the last delivery in the
    sequence that carries the order's id under one of the three routing keys
    (CANCELLED for inventory.unavailable and payment.failed, COMPLETED for
    payment.processed, stamped with the time of that delivery), and the ones
    the order had if there is no such delivery; customer, items, total amount
    and creation time keep their values. *)
Theorem X12_order_table_after_a_sequence_of_deliveries
    (ds : list (OrderService.IncomingMessage * Z))
    (orders : gmap string OrderService.Order) (oid : string) :
  OrderLedger.run ds orders !! oid
  = (λ o, MkOrder (customer_id o) (items o) (total_amount o)
                  (stamp_after oid ds (status o, updated_at o)).1
                  (created_at o)
                  (stamp_after oid ds (status o, updated_at o)).2) <$> orders !! oid.
Proof. rewrite run_lookup. done. Qed.

(** X13. No status is final for the order consumer: if the last delivery of a
    sequence is an order event for an order of the table, the order ends in the
    status of that event and with its time, whatever status it had and whatever
    was delivered before.  In particular a COMPLETED order is CANCELLED by a
    later payment.failed or inventory.unavailable. *)
Theorem X13_last_event_wins (ds : list (OrderService.IncomingMessage * Z))
    (m : OrderService.IncomingMessage) (now : Z)
    (orders : gmap string OrderService.Order) (o : OrderService.Order)
    (new_status : OrderService.OrderStatus) :
  orders !! body_order_id m = Some o →
  target_status (routing_key m) = Some new_status →
  OrderLedger.run (ds ++ [(m, now)]) orders !! body_order_id m
  = Some (with_status new_status now o).
Proof.
  intros Hget Hkey. rewrite run_lookup, Hget. simpl.
  rewrite stamp_after_snoc. simpl.
  rewrite decide_True by done. by rewrite Hkey.
Qed.

Lemma X13_last_event_wins_witness :
  let o := MkOrder "customer-1" "[]" 25 PENDING 0 0 in
  OrderLedger.run ([(Message "payment.processed" "O1", 1)] ++ [(Message "payment.failed" "O1", 2)])
                  {[ "O1" := o ]} !! "O1"
  = Some (with_status CANCELLED 2 o).
Proof.
  intros o.
  apply (X13_last_event_wins [(Message "payment.processed" "O1", 1)]
                             (Message "payment.failed" "O1") 2 {[ "O1" := o ]} o CANCELLED).
  - reflexivity.
  - reflexivity.
Defined.

(** X14. A delivery on the order queue publishes at most one message, and it
    publishes one exactly when its routing key is one of the three the consumer
    dispatches on and the order of its body is in the table, and the message
    goes to the order exchange; a delivery that publishes nothing leaves the
    table as it was. *)
Theorem X14_order_consumer_writes_iff_it_publishes (m : OrderService.IncomingMessage) (now : Z)
    (orders : gmap string OrderService.Order) :
  (order_event m ∧ is_Some (orders !! body_order_id m) ∧
   ∃ pub, (OrderService.on_message m now orders).2 = [pub] ∧
          exchange_name pub = "order_exchange")
  ∨
  (¬ (order_event m ∧ is_Some (orders !! body_order_id m)) ∧
   OrderService.on_message m now orders = (orders, [])).
Proof.
  destruct (decide (order_event m)) as [Hev|Hev].
  - destruct (orders !! body_order_id m) as [o|] eqn:Hget.
    + left. split_and!; [done|by eexists|].
      destruct m as [key oid]. simpl in *.
      unfold on_message; simpl.
      destruct Hev as [Hk | [Hk | Hk]]; simpl in Hk; subst key; simpl.
      * unfold process_inventory_unavailable.
        rewrite (update_order_status_found _ _ _ _ o Hget). by eexists.
      * unfold process_payment_processed.
        rewrite (update_order_status_found _ _ _ _ o Hget). by eexists.
      * unfold process_payment_failed.
        rewrite (update_order_status_found _ _ _ _ o Hget). by eexists.
    + right. split; [by intros [_ [? [=]]]|].
      destruct m as [key oid]. simpl in *.
      unfold on_message; simpl.
      unfold process_inventory_unavailable, process_payment_processed, process_payment_failed.
      rewrite !(update_order_status_missing _ _ _ _ Hget).
      by repeat case_decide.
  - right. split; [by intros [? _]|].
    unfold order_event in Hev. unfold on_message.
    repeat case_decide; try done; exfalso; apply Hev; eauto.
Qed.

End OrderLedgerFacts.

(** * Seeding: facts *)

Module SeederFacts.
Import InventorySeeder.

(** On an empty table the seeder leaves the inventory the examples start
    from. *)
Example seed_inventory_empty :
  seed_inventory ∅ = Ok (InventoryService.inventory InventoryService.seed_inventory).
Proof. reflexivity. Qed.

(** X15. Seeding is safe to repeat and never overwrites stock.  When
    [seed_inventory] returns, every row the table had is still there with the
    same stock, and a further run returns the same table; when product-A was
    missing, the table has gained exactly product-A with 10, product-B with 5
    and product-C with 0.  It raises only when product-A is missing while
    product-B or product-C is there, and then the exception is the
    IntegrityError of the commit. *)
Theorem X15_seeding_is_idempotent_and_keeps_stock (inventory : gmap string Z) :
  match InventorySeeder.seed_inventory inventory with
  | Ok inventory' =>
    inventory ⊆ inventory' ∧
    InventorySeeder.seed_inventory inventory' = Ok inventory' ∧
    (inventory !! "product-A" = None →
     inventory !! "product-B" = None ∧ inventory !! "product-C" = None ∧
     inventory' = <["product-C" := 0]> (<["product-B" := 5]> (<["product-A" := 10]> inventory)))
  | Raise e =>
    e = IntegrityError ∧ inventory !! "product-A" = None ∧
    (is_Some (inventory !! "product-B") ∨ is_Some (inventory !! "product-C"))
  end.
Proof.
  unfold seed_inventory.
  destruct (inventory !! "product-A") as [a|] eqn:HA.
  - split_and!; [done| by rewrite HA | done].
  - simpl. rewrite HA.
    rewrite lookup_insert_ne by done.
    destruct (inventory !! "product-B") as [b|] eqn:HB; [by eauto|].
    rewrite !lookup_insert_ne by done.
    destruct (inventory !! "product-C") as [c|] eqn:HC; [by eauto|].
    split_and!.
    + etrans; [|apply insert_subseteq; by rewrite !lookup_insert_ne by done].
      etrans; [|apply insert_subseteq; by rewrite !lookup_insert_ne by done].
      by apply insert_subseteq.
    + by rewrite !lookup_insert_ne, lookup_insert_eq by done.
    + done.
Qed.

End SeederFacts.

(** * The order API: facts *)

Module ApiFacts.
Import OrderService OrderLedger OrderApi.

Section api_facts.

Variable json_dumps : list InventoryService.Item → string.
Variable json_loads : string → option (list InventoryService.Item).

Lemma get_order_insert oid oid' (o : Order) (orders : gmap string Order) :
  oid' ≠ oid →
  get_order json_loads oid' (<[oid := o]> orders) = get_order json_loads oid' orders.
Proof. intros Hne. unfold get_order. by rewrite lookup_insert_ne. Qed.

(** X16. An order that was posted is read back as it was posted.  When
    [create_order] returns (the id drawn is not in the table) and [json.loads]
    gives back the item list that [json.dumps] was given, the answer of the POST
    and every later GET of the order show the customer, the items, the total
    amount and the creation time of the POST, whatever the order consumer
    has handled in between; the status of the POST is PENDING, the one of a
    later GET is the one the deliveries for this order have left.  The POST
    sends one OrderCreated with the same id, items and total when the channel
    is set and nothing when it is not; the order is stored in both cases, and
    the other orders read as before. *)
Theorem X16_posted_order_is_read_back (ds : list (OrderService.IncomingMessage * Z))
    (channel : bool) (oid : string) (now now' : Z) (order_data : OrderApi.OrderCreate)
    (orders orders' : gmap string OrderService.Order) (sent : list OrderApi.envelope)
    (answer : OrderApi.response OrderApi.OrderRead) :
  json_loads (json_dumps (create_items order_data)) = Some (create_items order_data) →
  OrderApi.create_order json_dumps json_loads channel oid now now' order_data orders
  = Ok (orders', sent, answer) →
  answer = Reply 201 (MkOrderRead oid (create_customer_id order_data) (create_items order_data)
                                  (create_total_amount order_data) PENDING now now')
  ∧ sent = (if channel
            then [FromApi "order_exchange" "order.created"
                          (MkOrderCreated oid (create_items order_data)
                                          (create_total_amount order_data))]
            else [])
  ∧ OrderApi.get_order json_loads oid (OrderLedger.run ds orders')
    = Reply 200 (MkOrderRead oid (create_customer_id order_data) (create_items order_data)
                             (create_total_amount order_data)
                             (stamp_after oid ds (PENDING, now')).1
                             now
                             (stamp_after oid ds (PENDING, now')).2)
  ∧ ∀ oid', oid' ≠ oid →
      OrderApi.get_order json_loads oid' orders' = OrderApi.get_order json_loads oid' orders.
Proof.
  intros Hjson. unfold create_order.
  destruct (orders !! oid) as [?|] eqn:Hfresh; [done|].
  intros [= <- <- <-]. split_and!.
  - unfold model_validate, new_order. simpl. by rewrite Hjson.
  - by destruct channel.
  - unfold get_order.
    rewrite OrderLedgerFacts.run_lookup, lookup_insert_eq. simpl.
    by rewrite Hjson.
  - intros oid' Hne. by apply get_order_insert.
Qed.

(** X17. A GET of an id that is not in the table answers 404 and one of an id
    in the table never does; the list of all orders, when it is answered, has
    exactly the answers of the single GETs, one for each order of the table;
    it is not answered exactly when the items column of some order does not
    parse. *)
Theorem X17_listing_agrees_with_single_reads (orders : gmap string OrderService.Order) :
  (∀ oid, OrderApi.get_order json_loads oid orders = HTTPException 404 "Order not found"
          ↔ orders !! oid = None)
  ∧
  match OrderApi.get_orders json_loads orders with
  | Reply status_code answers =>
    status_code = 200 ∧
    (∀ r, r ∈ answers ↔ OrderApi.get_order json_loads (read_id r) orders = Reply 200 r) ∧
    NoDup (read_id <$> answers) ∧
    length answers = size orders
  | HTTPException _ _ => False
  | Unhandled => ∃ oid, OrderApi.get_order json_loads oid orders = Unhandled
  end.
Proof.
  split.
  - intros oid. unfold get_order.
    destruct (orders !! oid) as [o|]; [|done].
    destruct (json_loads (items o)); split; done.
  - unfold get_orders.
    set (f := λ row : string * Order, _).
    destruct (mapM f (map_to_list orders)) as [answers|] eqn:Hm.
    + apply mapM_Some in Hm.
      assert (Hid : read_id <$> answers = (map_to_list orders).*1).
      { clear -Hm. induction Hm as [|[oid o] r l k Hf _ IH]; [done|].
        csimpl. rewrite IH. f_equal.
        unfold f in Hf. simpl in Hf.
        destruct (json_loads (items o)); simplify_eq/=. done. }
      split_and!; [done| | |].
      * intros r. split.
        -- intros Hr.
           apply list_elem_of_lookup in Hr as [i Hi].
           destruct (Forall2_lookup_r _ _ _ _ _ Hm Hi) as ([oid o] & Hrow & Hf).
           apply list_elem_of_lookup_2, elem_of_map_to_list in Hrow.
           unfold f in Hf. simpl in Hf.
           destruct (json_loads (items o)) as [parsed|] eqn:Hparsed; simplify_eq/=.
           unfold get_order. by rewrite Hrow, Hparsed.
        -- unfold get_order.
           destruct (orders !! read_id r) as [o|] eqn:Hrow; [|done].
           destruct (json_loads (items o)) as [parsed|] eqn:Hparsed; [|done].
           intros [= <-].
           apply elem_of_map_to_list, list_elem_of_lookup in Hrow as [i Hi].
           destruct (Forall2_lookup_l _ _ _ _ _ Hm Hi) as (r' & Hr & Hf).
           unfold f in Hf. simpl in Hf. rewrite Hparsed in Hf. simplify_eq/=.
           by eapply list_elem_of_lookup_2.
      * rewrite Hid. apply NoDup_fst_map_to_list.
      * rewrite <- (length_fmap read_id), Hid, length_fmap. apply length_map_to_list.
    + apply mapM_None in Hm.
      apply Exists_exists in Hm as ([oid o] & Hrow & Hf).
      apply elem_of_map_to_list in Hrow.
      exists oid. unfold get_order. rewrite Hrow.
      unfold f in Hf. simpl in Hf.
      by destruct (json_loads (items o)).
Qed.

End api_facts.

Lemma X16_posted_order_is_read_back_witness :
  let json_dumps := λ _ : list InventoryService.Item, "items" in
  let json_loads := λ _ : string, Some [InventoryService.MkItem "product-A" 2] in
  let order_data := MkOrderCreate "customer-1" [InventoryService.MkItem "product-A" 2] 20 in
  let order := MkOrder "customer-1" "items" 20 PENDING 5 6 in
  let ds := [(Message "payment.processed" "O1", 9)] in
  OrderApi.get_order json_loads "O1" (OrderLedger.run ds {[ "O1" := order ]})
  = Reply 200 (MkOrderRead "O1" "customer-1" [InventoryService.MkItem "product-A" 2] 20
                           COMPLETED 5 9).
Proof.
  intros json_dumps json_loads order_data order ds.
  pose proof (X16_posted_order_is_read_back json_dumps json_loads ds true "O1" 5 6 order_data ∅
                (<["O1" := order]> ∅) _ _ eq_refl eq_refl) as (_ & _ & Hget & _).
  exact Hget.
Defined.

End ApiFacts.

(** * The four consumers on one broker: facts *)

Module SagaFacts.
Import OrderApi Saga.

(** ** Routing *)

Lemma routed_created d :
  routed (FromApi "order_exchange" "order.created" d)
  = [(inventory_q, FromApi "order_exchange" "order.created" d)].
Proof. reflexivity. Qed.

Lemma routed_reserved oid :
  routed (FromConsumer (InventoryService.reserved_message oid))
  = [(payment_q, FromConsumer (InventoryService.reserved_message oid))].
Proof. reflexivity. Qed.

Lemma routed_unavailable oid :
  routed (FromConsumer (InventoryService.unavailable_message oid))
  = [(order_q, FromConsumer (InventoryService.unavailable_message oid))].
Proof. reflexivity. Qed.

Lemma routed_processed oid :
  routed (FromConsumer (PaymentService.processed_message oid))
  = [(order_q, FromConsumer (PaymentService.processed_message oid));
     (notification_q, FromConsumer (PaymentService.processed_message oid))].
Proof. reflexivity. Qed.

Lemma routed_failed oid :
  routed (FromConsumer (PaymentService.failed_message oid))
  = [(order_q, FromConsumer (PaymentService.failed_message oid));
     (notification_q, FromConsumer (PaymentService.failed_message oid))].
Proof. reflexivity. Qed.

Lemma routed_confirmed oid total :
  routed (FromConsumer (OrderService.confirmed_message oid total))
  = [(notification_q, FromConsumer (OrderService.confirmed_message oid total))].
Proof. reflexivity. Qed.

Lemma routed_cancelled oid reason :
  routed (FromConsumer (OrderService.cancelled_message oid reason))
  = [(inventory_q, FromConsumer (OrderService.cancelled_message oid reason));
     (notification_q, FromConsumer (OrderService.cancelled_message oid reason))].
Proof. reflexivity. Qed.

(** ** One delivery *)

Lemma run_step steps channel fuel draw clock k q w waiting s :
  run (S steps) channel fuel draw clock k ((q, w) :: waiting) s
  = match deliver channel fuel (draw k) (clock k) q w s with
    | Some (s', sent) =>
      run steps channel fuel draw clock (S k) (waiting ++ (sent ≫= routed)) s'
    | None => None
    end.
Proof. done. Qed.

Lemma run_nil steps channel fuel draw clock k s :
  run steps channel fuel draw clock k [] s = Some s.
Proof. by destruct steps. Qed.

Lemma deliver_created channel fuel draw now oid items total s :
  deliver channel fuel draw now inventory_q
          (FromApi "order_exchange" "order.created" (MkOrderCreated oid items total)) s
  = Some (MkSystem (orders s) (InventoryService.process_order_created oid items (stock s)).1
                   (payments s) (notifications s),
          FromConsumer <$> (InventoryService.process_order_created oid items (stock s)).2).
Proof. done. Qed.

Lemma deliver_cancelled channel fuel draw now oid reason s :
  deliver channel fuel draw now inventory_q
          (FromConsumer (OrderService.cancelled_message oid reason)) s
  = Some (MkSystem (orders s) (InventoryService.process_order_cancelled oid (stock s)).1
                   (payments s) (notifications s),
          FromConsumer <$> (InventoryService.process_order_cancelled oid (stock s)).2).
Proof. done. Qed.

Lemma deliver_reserved channel fuel draw now oid s payments' pubs log :
  PaymentService.process_inventory_reserved fuel draw oid (payments s)
  = Some (payments', pubs, log) →
  deliver channel fuel draw now payment_q
          (FromConsumer (InventoryService.reserved_message oid)) s
  = Some (MkSystem (orders s) (stock s) payments' (notifications s), FromConsumer <$> pubs).
Proof. intros Hpay. simpl. unfold deliver_payment. simpl. by rewrite Hpay. Qed.

Lemma deliver_notification_step channel fuel draw now w s :
  deliver channel fuel draw now notification_q w s
  = Some (MkSystem (orders s) (stock s) (payments s)
                   (notifications s ++ [(event_type_of w, order_id_of w)]), []).
Proof. done. Qed.

Lemma deliver_processed fuel draw now oid s o :
  orders s !! oid = Some o →
  deliver true fuel draw now order_q (FromConsumer (PaymentService.processed_message oid)) s
  = Some (MkSystem (<[oid := OrderService.with_status OrderService.COMPLETED now o]> (orders s))
                   (stock s) (payments s) (notifications s),
          [FromConsumer (OrderService.confirmed_message oid (OrderService.total_amount o))]).
Proof.
  intros Hget. simpl. unfold deliver_order. simpl.
  unfold OrderService.on_message. simpl.
  unfold OrderService.process_payment_processed.
  by rewrite (OrderFacts.update_order_status_found _ _ _ _ o Hget).
Qed.

Lemma deliver_failed fuel draw now oid s o :
  orders s !! oid = Some o →
  deliver true fuel draw now order_q (FromConsumer (PaymentService.failed_message oid)) s
  = Some (MkSystem (<[oid := OrderService.with_status OrderService.CANCELLED now o]> (orders s))
                   (stock s) (payments s) (notifications s),
          [FromConsumer (OrderService.cancelled_message oid "Payment Failed")]).
Proof.
  intros Hget. simpl. unfold deliver_order. simpl.
  unfold OrderService.on_message. simpl.
  unfold OrderService.process_payment_failed.
  by rewrite (OrderFacts.update_order_status_found _ _ _ _ o Hget).
Qed.

Lemma deliver_unavailable fuel draw now oid s o :
  orders s !! oid = Some o →
  deliver true fuel draw now order_q (FromConsumer (InventoryService.unavailable_message oid)) s
  = Some (MkSystem (<[oid := OrderService.with_status OrderService.CANCELLED now o]> (orders s))
                   (stock s) (payments s) (notifications s),
          [FromConsumer (OrderService.cancelled_message oid "Inventory Unavailable")]).
Proof.
  intros Hget. simpl. unfold deliver_order. simpl.
  unfold OrderService.on_message. simpl.
  unfold OrderService.process_inventory_unavailable.
  by rewrite (OrderFacts.update_order_status_found _ _ _ _ o Hget).
Qed.

(** ** The charge *)

Lemma charge_succeeds fuel (draw : nat → bool) :
  (3 ≤ fuel)%nat →
  draw 1%nat = true ∨ draw 2%nat = true ∨ draw 3%nat = true →
  ∃ log, PaymentService.simulate_payment_processing fuel draw = Some (Ok true, log).
Proof.
  intros Hfuel Hdraw. rewrite PaymentFacts.simulate_payment_processing_cases by done.
  destruct (draw 1%nat); [by eexists|].
  destruct (draw 2%nat); [by eexists|].
  destruct (draw 3%nat); [by eexists|].
  by destruct Hdraw as [|[|]].
Qed.

Lemma charge_fails fuel (draw : nat → bool) :
  (3 ≤ fuel)%nat →
  draw 1%nat = false → draw 2%nat = false → draw 3%nat = false →
  PaymentService.simulate_payment_processing fuel draw
  = Some (Raise RetryError, PaymentService.MkLog 3 [2; 2]).
Proof.
  intros Hfuel H1 H2 H3. rewrite PaymentFacts.simulate_payment_processing_cases by done.
  by rewrite H1, H2, H3.
Qed.

Lemma keys_free_fresh oid items (db : InventoryService.Db) :
  InventoryService.reservations_of oid (InventoryService.inventory_reservations db) = [] →
  InventoryLedger.keys_free oid items db.
Proof.
  intros Hnone item _ (r & Hpk & Hr)%list_elem_of_fmap.
  apply (InventoryFacts.no_reservation_elem oid _ r Hnone Hr).
  unfold InventoryService.pk in Hpk. by simplify_eq.
Qed.

Ltac lists :=
  cbn [orders stock payments notifications mbind list_bind fmap list_fmap app fst snd].


(** X18. An order that is served and paid.  The order id is new to the three
    services, every item can be served from the stock, no product is named
    twice, the channel of the order service is set and one of the three
    attempts of the charge succeeds.  Then the deliveries the POST sets off
    come to an end after five of them (inventory, payment, order, and two
    notifications) and leave: the order COMPLETED, with the update time of the
    delivery of PaymentProcessed; the stock lowered by the items and one
    reservation row per item; one payment row PROCESSED, with the placeholder
    amount 100 whatever the total of the order; and two notifications,
    PaymentProcessed and OrderConfirmed; nothing else is changed. *)
Theorem X18_saga_of_a_paid_order (json_dumps : list InventoryService.Item → string)
    (json_loads : string → option (list InventoryService.Item))
    (steps fuel : nat) (draw : nat → nat → bool) (clock : nat → Z)
    (oid : string) (now now' : Z) (order_data : OrderApi.OrderCreate) (s : Saga.System) :
  (5 ≤ steps)%nat → (3 ≤ fuel)%nat →
  orders s !! oid = None →
  payments s !! oid = None →
  Forall (InventoryService.covered (InventoryService.inventory (stock s)))
         (create_items order_data) →
  NoDup (InventoryService.item_product_id <$> create_items order_data) →
  InventoryLedger.keys_free oid (create_items order_data) (stock s) →
  draw 1%nat 1%nat = true ∨ draw 1%nat 2%nat = true ∨ draw 1%nat 3%nat = true →
  ∃ inv',
    InventoryService.decrement_stock
      (InventoryService.inventory (stock s))
      (InventoryService.reservation_of_item oid <$> create_items order_data) = Ok inv' ∧
    Saga.post_order json_dumps json_loads steps true fuel draw clock oid now now' order_data s
    = Some (MkSystem
              (<[oid := OrderService.MkOrder (create_customer_id order_data)
                                             (json_dumps (create_items order_data))
                                             (create_total_amount order_data)
                                             OrderService.COMPLETED now (clock 2%nat)]>
                 (orders s))
              (InventoryService.MkDb
                 inv'
                 (InventoryService.inventory_reservations (stock s)
                  ++ (InventoryService.reservation_of_item oid <$> create_items order_data)))
              (<[oid := PaymentService.MkPayment 100 "PROCESSED"]> (payments s))
              (notifications s ++ [("PaymentProcessed", oid); ("OrderConfirmed", oid)])).
Proof.
  intros Hsteps Hfuel Hfresh Hpay Hcov Hnodup Hfree Hdraw.
  destruct (LedgerFacts.process_order_created_reserved oid _ (stock s) Hcov Hnodup Hfree)
    as (inv' & Hdec & Hcreated).
  exists inv'. split; [done|].
  destruct (charge_succeeds fuel (draw 1%nat) Hfuel Hdraw) as [log Hcharge].
  do 5 (destruct steps as [|steps]; [lia|]).
  unfold post_order, create_order. rewrite Hfresh.
  cbn [publish_event]. lists. rewrite routed_created. lists.
  rewrite run_step, deliver_created. lists. rewrite Hcreated. lists. rewrite routed_reserved. lists.
  rewrite run_step.
  erewrite deliver_reserved
    by (by apply PaymentFacts.process_inventory_reserved_charged).
  lists. rewrite routed_processed. lists.
  rewrite run_step.
  erewrite deliver_processed by (cbn [orders]; apply lookup_insert_eq).
  lists. rewrite routed_confirmed. lists.
  rewrite run_step, deliver_notification_step.
  lists.
  rewrite run_step, deliver_notification_step.
  lists.
  rewrite run_nil, insert_insert_eq, <- (assoc_L (++)).
  done.
Qed.

Lemma X18_saga_of_a_paid_order_witness :
  let s := MkSystem ∅ InventoryService.seed_inventory ∅ [] in
  let order_data := MkOrderCreate "customer-1" [InventoryService.MkItem "product-A" 2] 20 in
  ∃ inv',
    InventoryService.decrement_stock
      (InventoryService.inventory (stock s))
      (InventoryService.reservation_of_item "O1" <$> create_items order_data) = Ok inv' ∧
    Saga.post_order (λ _, "items") (λ _, None) 5 true 3 (λ _ _, true) Z.of_nat "O1" 7 8
                    order_data s
    = Some (MkSystem
              (<["O1" := OrderService.MkOrder "customer-1" "items" 20
                                              OrderService.COMPLETED 7 2]> ∅)
              (InventoryService.MkDb
                 inv'
                 (InventoryService.inventory_reservations (stock s)
                  ++ (InventoryService.reservation_of_item "O1" <$> create_items order_data)))
              (<["O1" := PaymentService.MkPayment 100 "PROCESSED"]> ∅)
              ([] ++ [("PaymentProcessed", "O1"); ("OrderConfirmed", "O1")])).
Proof.
  intros s order_data.
  apply (X18_saga_of_a_paid_order (λ _, "items") (λ _, None) 5 3 (λ _ _, true) Z.of_nat
                                  "O1" 7 8 order_data s).
  - lia.
  - lia.
  - reflexivity.
  - reflexivity.
  - repeat constructor. exists 10. split; [reflexivity|]. simpl. lia.
  - apply NoDup_singleton.
  - intros item _. apply not_elem_of_nil.
  - by left.
Defined.

(** ** An order that cannot be served *)

Lemma process_order_cancelled_publishes oid db :
  (InventoryService.process_order_cancelled oid db).2 = [].
Proof.
  unfold InventoryService.process_order_cancelled.
  by destruct (InventoryService.reservations_of _ _).
Qed.

(** X19. An order that cannot be served.  The order id is new to the order
    table and has no reservation row, the channel is set, and some item names
    a product that has no inventory row or less stock than asked.  Then the
    deliveries the POST sets off come to an end after four of them (inventory,
    order, the compensation in the inventory, one notification) and leave the
    order CANCELLED, with the update time of the delivery of
    InventoryUnavailable, and one notification, OrderCancelled; the stock, the
    reservations and the payments are as they were: the payment service is never
    reached. *)
Theorem X19_saga_of_an_order_out_of_stock (json_dumps : list InventoryService.Item → string)
    (json_loads : string → option (list InventoryService.Item))
    (steps fuel : nat) (draw : nat → nat → bool) (clock : nat → Z)
    (oid : string) (now now' : Z) (order_data : OrderApi.OrderCreate) (s : Saga.System) :
  (4 ≤ steps)%nat →
  orders s !! oid = None →
  InventoryService.reservations_of oid (InventoryService.inventory_reservations (stock s)) = [] →
  Exists (InventoryService.unavailable (InventoryService.inventory (stock s)))
         (create_items order_data) →
  Saga.post_order json_dumps json_loads steps true fuel draw clock oid now now' order_data s
  = Some (MkSystem
            (<[oid := OrderService.MkOrder (create_customer_id order_data)
                                           (json_dumps (create_items order_data))
                                           (create_total_amount order_data)
                                           OrderService.CANCELLED now (clock 1%nat)]>
               (orders s))
            (stock s)
            (payments s)
            (notifications s ++ [("OrderCancelled", oid)])).
Proof.
  intros Hsteps Hfresh Hnone Hbad.
  do 4 (destruct steps as [|steps]; [lia|]).
  unfold post_order, create_order. rewrite Hfresh.
  cbn [publish_event]. lists. rewrite routed_created. lists.
  rewrite run_step, deliver_created. lists.
  rewrite (LedgerFacts.process_order_created_unavailable _ _ _ Hbad).
  lists. rewrite routed_unavailable. lists.
  rewrite run_step.
  erewrite deliver_unavailable by (cbn [orders]; apply lookup_insert_eq).
  lists. rewrite routed_cancelled. lists.
  rewrite run_step, deliver_cancelled. lists.
  rewrite (InventoryFacts.process_order_cancelled_none _ _ Hnone). lists.
  rewrite run_step, deliver_notification_step. lists.
  rewrite run_nil, insert_insert_eq.
  by destruct (stock s).
Qed.

Lemma X19_saga_of_an_order_out_of_stock_witness :
  let s := MkSystem ∅ InventoryService.seed_inventory ∅ [] in
  let order_data := MkOrderCreate "customer-1" [InventoryService.MkItem "product-C" 1] 20 in
  Saga.post_order (λ _, "items") (λ _, None) 4 true 0 (λ _ _, true) Z.of_nat "O1" 7 8
                  order_data s
  = Some (MkSystem
            (<["O1" := OrderService.MkOrder "customer-1" "items" 20
                                            OrderService.CANCELLED 7 1]> ∅)
            InventoryService.seed_inventory
            ∅
            ([] ++ [("OrderCancelled", "O1")])).
Proof.
  intros s order_data.
  apply (X19_saga_of_an_order_out_of_stock (λ _, "items") (λ _, None) 4 0 (λ _ _, true)
                                           Z.of_nat "O1" 7 8 order_data s).
  - lia.
  - reflexivity.
  - reflexivity.
  - apply Exists_cons_hd. vm_compute. reflexivity.
Defined.

(** ** An order whose payment fails *)

(** X20. An order whose payment fails is compensated.  The order id is new to
    the three services, every item can be served, the channel is set and the
    three attempts of the charge all fail.  Then the deliveries the POST sets
    off come to an end after six of them and leave the order CANCELLED, one
    payment row FAILED, the notifications PaymentFailed and OrderCancelled, and
    the inventory store exactly as it was before the order: every stock is
    back and no reservation row of the order is left. *)
Theorem X20_saga_of_a_failed_payment (json_dumps : list InventoryService.Item → string)
    (json_loads : string → option (list InventoryService.Item))
    (steps fuel : nat) (draw : nat → nat → bool) (clock : nat → Z)
    (oid : string) (now now' : Z) (order_data : OrderApi.OrderCreate) (s : Saga.System) :
  (6 ≤ steps)%nat → (3 ≤ fuel)%nat →
  orders s !! oid = None →
  payments s !! oid = None →
  InventoryService.reservations_of oid (InventoryService.inventory_reservations (stock s)) = [] →
  Forall (InventoryService.covered (InventoryService.inventory (stock s)))
         (create_items order_data) →
  NoDup (InventoryService.item_product_id <$> create_items order_data) →
  draw 1%nat 1%nat = false → draw 1%nat 2%nat = false → draw 1%nat 3%nat = false →
  Saga.post_order json_dumps json_loads steps true fuel draw clock oid now now' order_data s
  = Some (MkSystem
            (<[oid := OrderService.MkOrder (create_customer_id order_data)
                                           (json_dumps (create_items order_data))
                                           (create_total_amount order_data)
                                           OrderService.CANCELLED now (clock 2%nat)]>
               (orders s))
            (stock s)
            (<[oid := PaymentService.MkPayment 100 "FAILED"]> (payments s))
            (notifications s ++ [("PaymentFailed", oid); ("OrderCancelled", oid)])).
Proof.
  intros Hsteps Hfuel Hfresh Hpay Hnone Hcov Hnodup H1 H2 H3.
  pose proof (keys_free_fresh oid (create_items order_data) (stock s) Hnone) as Hfree.
  pose proof (InventoryFacts.cancel_after_created_restores_store
                oid (create_items order_data) (stock s) Hnone) as Hback.
  destruct (LedgerFacts.process_order_created_reserved oid _ (stock s) Hcov Hnodup Hfree)
    as (inv' & _ & Hcreated).
  pose proof (charge_fails fuel (draw 1%nat) Hfuel H1 H2 H3) as Hcharge.
  do 6 (destruct steps as [|steps]; [lia|]).
  unfold post_order, create_order. rewrite Hfresh.
  cbn [publish_event]. lists. rewrite routed_created. lists.
  rewrite run_step, deliver_created. lists.
  destruct (InventoryService.process_order_created oid (create_items order_data) (stock s))
    as [db pubs].
  injection Hcreated as _ ->. cbn [fst] in Hback. lists. rewrite routed_reserved. lists.
  rewrite run_step.
  erewrite deliver_reserved
    by (by eapply PaymentFacts.process_inventory_reserved_exhausted).
  lists. rewrite routed_failed. lists.
  rewrite run_step.
  erewrite deliver_failed by (cbn [orders]; apply lookup_insert_eq).
  lists. rewrite routed_cancelled. lists.
  rewrite run_step, deliver_notification_step. lists.
  rewrite run_step, deliver_cancelled. lists.
  rewrite Hback, process_order_cancelled_publishes. lists.
  rewrite run_step, deliver_notification_step. lists.
  rewrite run_nil, insert_insert_eq, <- (assoc_L (++)).
  done.
Qed.

Lemma X20_saga_of_a_failed_payment_witness :
  let s := MkSystem ∅ InventoryService.seed_inventory ∅ [] in
  let order_data := MkOrderCreate "customer-1" [InventoryService.MkItem "product-A" 2] 20 in
  Saga.post_order (λ _, "items") (λ _, None) 6 true 3 (λ _ _, false) Z.of_nat "O1" 7 8
                  order_data s
  = Some (MkSystem
            (<["O1" := OrderService.MkOrder "customer-1" "items" 20
                                            OrderService.CANCELLED 7 2]> ∅)
            InventoryService.seed_inventory
            (<["O1" := PaymentService.MkPayment 100 "FAILED"]> ∅)
            ([] ++ [("PaymentFailed", "O1"); ("OrderCancelled", "O1")])).
Proof.
  intros s order_data.
  apply (X20_saga_of_a_failed_payment (λ _, "items") (λ _, None) 6 3 (λ _ _, false)
                                      Z.of_nat "O1" 7 8 order_data s).
  - lia.
  - lia.
  - reflexivity.
  - reflexivity.
  - reflexivity.
  - repeat constructor. exists 10. split; [reflexivity|]. simpl. lia.
  - apply NoDup_singleton.
  - reflexivity.
  - reflexivity.
  - reflexivity.
Defined.

(** ** An order that is never answered *)

Lemma process_order_created_refused oid items (db : InventoryService.Db) :
  Forall (InventoryService.covered (InventoryService.inventory db)) items →
  ¬ (NoDup (InventoryService.item_product_id <$> items)
     ∧ InventoryLedger.keys_free oid items db) →
  InventoryService.process_order_created oid items db = (db, []).
Proof.
  intros Hcov Hnot.
  destruct (InventoryFacts.process_order_created_outcome oid items db)
    as [Hbad|_ _|inv' _ Hnodup Hfree _].
  - apply Exists_exists in Hbad as (item & Hin & Hbad).
    rewrite Forall_forall in Hcov.
    by destruct (LedgerFacts.covered_not_unavailable _ _ (Hcov _ Hin)).
  - done.
  - by destruct Hnot.
Qed.

(** X21. Orders that are accepted and never answered.  A POST whose id is new
    stores the order and answers, but the order stays PENDING for good, and no
    stock, reservation, payment or notification follows, in two cases: the
    channel of the order service was never set up, so the OrderCreated is
    dropped; or every item can be served but the order names a product twice
    (or a reservation key of the order is taken), so the commit of the
    inventory is refused and the inventory answers neither InventoryReserved
    nor InventoryUnavailable. *)
Theorem X21_orders_that_stay_pending (json_dumps : list InventoryService.Item → string)
    (json_loads : string → option (list InventoryService.Item))
    (steps : nat) (channel : bool) (fuel : nat) (draw : nat → nat → bool) (clock : nat → Z)
    (oid : string) (now now' : Z) (order_data : OrderApi.OrderCreate) (s : Saga.System) :
  orders s !! oid = None →
  channel = false
  ∨ ((1 ≤ steps)%nat
     ∧ Forall (InventoryService.covered (InventoryService.inventory (stock s)))
              (create_items order_data)
     ∧ ¬ (NoDup (InventoryService.item_product_id <$> create_items order_data)
          ∧ InventoryLedger.keys_free oid (create_items order_data) (stock s))) →
  Saga.post_order json_dumps json_loads steps channel fuel draw clock oid now now' order_data s
  = Some (MkSystem
            (<[oid := OrderService.MkOrder (create_customer_id order_data)
                                           (json_dumps (create_items order_data))
                                           (create_total_amount order_data)
                                           OrderService.PENDING now now']>
               (orders s))
            (stock s)
            (payments s)
            (notifications s)).
Proof.
  intros Hfresh Hcase.
  unfold post_order, create_order. rewrite Hfresh.
  destruct channel.
  - destruct Hcase as [|(Hsteps & Hcov & Hnot)]; [done|].
    destruct steps as [|steps]; [lia|].
    cbn [publish_event]. lists. rewrite routed_created. lists.
    rewrite run_step, deliver_created. lists.
    rewrite (process_order_created_refused _ _ _ Hcov Hnot). lists.
    rewrite run_nil. by destruct (stock s).
  - cbn [publish_event]. lists. by rewrite run_nil.
Qed.

Lemma X21_orders_that_stay_pending_witness :
  let s := MkSystem ∅ InventoryService.seed_inventory ∅ [] in
  let order_data :=
    MkOrderCreate "customer-1" [InventoryService.MkItem "product-A" 6;
                                InventoryService.MkItem "product-A" 6] 20 in
  Saga.post_order (λ _, "items") (λ _, None) 1 true 3 (λ _ _, true) Z.of_nat "O1" 7 8
                  order_data s
  = Some (MkSystem
            (<["O1" := OrderService.MkOrder "customer-1" "items" 20 OrderService.PENDING 7 8]> ∅)
            InventoryService.seed_inventory
            ∅
            []).
Proof.
  intros s order_data.
  apply (X21_orders_that_stay_pending (λ _, "items") (λ _, None) 1 true 3 (λ _ _, true)
                                      Z.of_nat "O1" 7 8 order_data s).
  - reflexivity.
  - right. split; [lia|]. split.
    + repeat constructor; (exists 10; split; [reflexivity|simpl; lia]).
    + intros [Hnodup _]. apply NoDup_cons in Hnodup as [Hnotin _].
      apply Hnotin. apply list_elem_of_here.
Defined.

(** ** Every cascade ends *)

Lemma process_inventory_reserved_returns fuel draw oid
    (payments : gmap string PaymentService.Payment) :
  (3 ≤ fuel)%nat →
  ∃ payments' pubs log,
    PaymentService.process_inventory_reserved fuel draw oid payments
    = Some (payments', pubs, log) ∧
    (pubs = [] ∨ pubs = [PaymentService.processed_message oid]
     ∨ pubs = [PaymentService.failed_message oid]).
Proof.
  intros Hfuel. destruct (payments !! oid) as [p|] eqn:Hget.
  - unfold PaymentService.process_inventory_reserved. rewrite Hget. eauto 10.
  - pose proof (PaymentFacts.simulate_payment_processing_cases fuel draw Hfuel) as Hsim.
    destruct (draw 1%nat); [|destruct (draw 2%nat); [|destruct (draw 3%nat)]].
    1-3: erewrite PaymentFacts.process_inventory_reserved_charged by done; eauto 10.
    erewrite PaymentFacts.process_inventory_reserved_exhausted by done; eauto 10.
Qed.

Lemma inventory_on_message_publishes (m : InventoryService.IncomingMessage)
    (db : InventoryService.Db) :
  (InventoryService.on_message m db).2 = [] ∨
  (InventoryService.routing_key m = "order.created" ∧
   ((InventoryService.on_message m db).2
    = [InventoryService.reserved_message (InventoryService.body_order_id m)] ∨
    (InventoryService.on_message m db).2
    = [InventoryService.unavailable_message (InventoryService.body_order_id m)])).
Proof.
  unfold InventoryService.on_message. case_decide as Hkey.
  - destruct (InventoryFacts.process_order_created_outcome
                (InventoryService.body_order_id m) (InventoryService.body_items m) db)
      as [_|_ _|inv' _ _ _ _]; simpl; auto.
  - left. case_decide; [|done]. apply process_order_cancelled_publishes.
Qed.

Lemma order_on_message_publishes (m : OrderService.IncomingMessage) (now : Z)
    (orders : gmap string OrderService.Order) :
  (OrderService.on_message m now orders).2 = [] ∨
  (∃ total, (OrderService.on_message m now orders).2
            = [OrderService.confirmed_message (OrderService.body_order_id m) total]) ∨
  (∃ reason, (OrderService.on_message m now orders).2
             = [OrderService.cancelled_message (OrderService.body_order_id m) reason]).
Proof.
  unfold OrderService.on_message, OrderService.process_inventory_unavailable,
    OrderService.process_payment_processed, OrderService.process_payment_failed,
    OrderService.update_order_status.
  repeat case_decide; destruct (orders !! OrderService.body_order_id m); simpl; eauto.
Qed.

Lemma deliver_weight channel fuel draw now q w s :
  (3 ≤ fuel)%nat →
  ∃ s' sent, deliver channel fuel draw now q w s = Some (s', sent) ∧
             (sum_list_with weight (sent ≫= routed) + 1 ≤ weight (q, w))%nat.
Proof.
  intros Hfuel. destruct q; cbn [deliver].
  - destruct w as [ex key d|p]; cbn [deliver_inventory].
    + eexists _, _. split; [done|].
      destruct (inventory_on_message_publishes
                  (InventoryService.Message key (created_order_id d) (created_items d))
                  (stock s)) as [->|[Hkey [-> | ->]]].
      * unfold weight. simpl. case_decide; lia.
      * simpl in Hkey. subst key. lists. rewrite routed_reserved. vm_compute. lia.
      * simpl in Hkey. subst key. lists. rewrite routed_unavailable. vm_compute. lia.
    + case_decide as Hkey.
      * eexists _, _. split; [done|]. unfold weight. simpl. case_decide; lia.
      * eexists _, _. split; [done|].
        destruct (inventory_on_message_publishes
                    (InventoryService.Message (pub_routing_key p)
                                              (event_order_id (message_data p)) [])
                    (stock s)) as [->|[Hkey' _]]; [|done].
        unfold weight. simpl. case_decide; lia.
  - unfold deliver_payment.
    destruct (process_inventory_reserved_returns fuel draw (order_id_of w) (payments s) Hfuel)
      as (payments' & pubs & log & -> & [->|[->| ->]]);
      eexists _, _; (split; [done|]); lists.
    + vm_compute. lia.
    + rewrite routed_processed. vm_compute. lia.
    + rewrite routed_failed. vm_compute. lia.
  - unfold deliver_order. eexists _, _. split; [done|]. lists.
    destruct (order_on_message_publishes
                (OrderService.Message (routing_key_of w) (order_id_of w)) now (orders s))
      as [->|[[total ->]|[reason ->]]]; destruct channel; cbn [publish_event]; lists;
      rewrite ?routed_confirmed, ?routed_cancelled; vm_compute; lia.
  - unfold deliver_notification. eexists _, _. split; [done|]. vm_compute. lia.
Qed.

Lemma run_returns channel fuel draw clock steps :
  (3 ≤ fuel)%nat →
  ∀ k waiting s,
    (sum_list_with weight waiting ≤ steps)%nat →
    is_Some (run steps channel fuel draw clock k waiting s).
Proof.
  intros Hfuel. induction steps as [|steps IH]; intros k waiting s Hsum.
  - destruct waiting as [|[q w] waiting]; [by eexists|].
    destruct (deliver_weight channel fuel (draw k) (clock k) q w s Hfuel) as (? & ? & _ & ?).
    simpl in Hsum. lia.
  - destruct waiting as [|[q w] waiting]; [by eexists|].
    rewrite run_step.
    destruct (deliver_weight channel fuel (draw k) (clock k) q w s Hfuel)
      as (s' & sent & -> & Hle).
    apply IH. rewrite sum_list_with_app. simpl in Hsum. lia.
Qed.

(** X22. Every cascade of deliveries comes to an end.  Given fuel for the
    three attempts of a charge, whatever deliveries are waiting in the four
    queues and whatever the stores hold, handling them and all the deliveries
    they set off stops, after at most six deliveries for each waiting
    OrderCreated on the inventory queue, five for each delivery on the payment
    queue, three for each on the order queue and one for any other; so a POST
    sets off at most six deliveries: no message of the services feeds a
    loop. *)
Theorem X22_every_cascade_ends (json_dumps : list InventoryService.Item → string)
    (json_loads : string → option (list InventoryService.Item))
    (steps : nat) (channel : bool) (fuel : nat) (draw : nat → nat → bool) (clock : nat → Z)
    (k : nat) (waiting : list (Saga.queue * OrderApi.envelope)) (s : Saga.System)
    (oid : string) (now now' : Z) (order_data : OrderApi.OrderCreate) :
  (3 ≤ fuel)%nat →
  ((sum_list_with Saga.weight waiting ≤ steps)%nat →
   is_Some (Saga.run steps channel fuel draw clock k waiting s))
  ∧
  ((6 ≤ steps)%nat →
   is_Some (Saga.post_order json_dumps json_loads steps channel fuel draw clock
                            oid now now' order_data s)).
Proof.
  intros Hfuel. split.
  - by apply run_returns.
  - intros Hsteps. unfold post_order, create_order.
    destruct (orders s !! oid); [by eexists|].
    apply run_returns; [done|].
    destruct channel; cbn [publish_event]; lists;
      rewrite ?routed_created; vm_compute; lia.
Qed.

Lemma X22_every_cascade_ends_witness :
  let s := MkSystem ∅ InventoryService.seed_inventory ∅ [] in
  let order_data := MkOrderCreate "customer-1" [InventoryService.MkItem "product-A" 2] 20 in
  let w := FromConsumer (PaymentService.failed_message "O1") in
  is_Some (Saga.run 6 true 3 (λ _ _, false) Z.of_nat 0 [(order_q, w); (notification_q, w)] s)
  ∧
  is_Some (Saga.post_order (λ _, "items") (λ _, None) 6 true 3 (λ _ _, false) Z.of_nat
                           "O1" 7 8 order_data s).
Proof.
  intros s order_data w.
  destruct (X22_every_cascade_ends (λ _, "items") (λ _, None) 6 true 3 (λ _ _, false) Z.of_nat
                                   0 [(order_q, w); (notification_q, w)] s "O1" 7 8 order_data)
    as [Hrun Hpost]; [lia|].
  split; [apply Hrun; vm_compute; lia|apply Hpost; lia].
Defined.

End SagaFacts.
